(** * restic-PyBM: the wrapper's main line, embedded and checked

    The script [restic-PyBM.py] drives the [restic] Python binding over the
    repositories of a YAML file and reduces the run to a Nagios-style exit
    status.  This development embeds the script's own code (the function
    [get_repo_password], the function [end_script] and the main line) as
    executable definitions, and states the properties of the
    specification against them.

    Conventions of the embedding.

    - Python exceptions are values of [exn]; code that may raise returns
      [res].  The main line runs in a state-and-exception monad [M] over
      the script's global variables, the process environment, the
      attributes of the [restic] module and the log of engine calls.
    - What the script imports is a parameter, gathered in [world]: the
      engine behind the [restic] binding, the secret store, the clock, and
      the two library conversions [int] and [datetime.strptime].
    - [os.environ] has no method [set]: every call [os.environ.set(k, v)]
      (lines 188-192, 200 and 299) raises [AttributeError] when the method
      is looked up, before its arguments are evaluated, and is embedded so.
      The binding has no attribute [Error] either, so that the handler of
      line 152 raises [AttributeError] when it is reached.  The stray
      closing parenthesis of line 295 is dropped: nothing can be said of a
      file that is not parsed.
    - A run is embedded from the two calls of line 140 and 141 on
      ([script]); [main] is the part from line 143 on, for the arguments
      and the configuration these calls returned.
    - A [datetime] is a number of microseconds on the naive local time
      line, a [timedelta] a (signed) number of microseconds. *)

From Stdlib Require Import ZArith List String Ascii Bool Lia DecimalString.
Import ListNotations.

Open Scope string_scope.
Open Scope Z_scope.

(** ** Python values and exceptions *)

Inductive exn : Type :=
| KeyError (k : string)        (* a missing key of a dict *)
| IndexError                   (* list index out of range *)
| TypeError                    (* subscript of, or assignment from, the wrong type *)
| ValueError                   (* int() or strptime() on a malformed string *)
| OverflowError                (* timedelta(days=n) out of range *)
| NameError (name : string)    (* an unbound global *)
| AttributeError               (* an attribute the object does not have *)
| ResticError                  (* restic.errors.Error: the engine exited non-zero *)
| VaultError.                  (* any exception of the hvac client *)

Inductive res (A : Type) : Type :=
| Ok (a : A)
| Exc (e : exn).
Arguments Ok {A} a.
Arguments Exc {A} e.

Definition res_bind {A B : Type} (r : res A) (k : A -> res B) : res B :=
  match r with
  | Ok a => k a
  | Exc e => Exc e
  end.

Declare Scope res_scope.
Delimit Scope res_scope with res.
Notation "'let?' x ':=' r 'in' k" := (res_bind r (fun x => k))
  (at level 10, x pattern, r at level 100, k at level 200) : res_scope.

(** [d[k]] on a dict with string keys, kept in insertion order. *)
Fixpoint dict_get {V : Type} (d : list (string * V)) (k : string) : option V :=
  match d with
  | [] => None
  | (k', v) :: d' => if String.eqb k k' then Some v else dict_get d' k
  end.

Definition subscript {V : Type} (d : list (string * V)) (k : string) : res V :=
  match dict_get d k with
  | Some v => Ok v
  | None => Exc (KeyError k)
  end.

(** [d[k] = v]: an existing key keeps its place, a new one goes last. *)
Fixpoint dict_set {V : Type} (d : list (string * V)) (k : string) (v : V)
  : list (string * V) :=
  match d with
  | [] => [(k, v)]
  | (k', v') :: d' =>
      if String.eqb k k' then (k, v) :: d' else (k', v') :: dict_set d' k v
  end.

Definition keys {V : Type} (d : list (string * V)) : list string := map fst d.

Definition str_in (k : string) (l : list string) : bool :=
  existsb (String.eqb k) l.

(** [s[0:n]] *)
Definition slice0 (n : nat) (s : string) : string := substring 0 n s.

(** ['\x00' in s] *)
Fixpoint has_nul (s : string) : bool :=
  match s with
  | EmptyString => false
  | String c s' => Ascii.eqb c zero || has_nul s'
  end.

(** ** Rendering of integers and of [timedelta] *)

(** ["%d" % z] *)
Definition fmt_d (z : Z) : string := NilZero.string_of_int (Z.to_int z).

Fixpoint zeros (n : nat) : string :=
  match n with
  | O => ""
  | S n' => "0" ++ zeros n'
  end.

(** ["%0wd" % z] for [0 <= z] *)
Definition fmt_0d (w : nat) (z : Z) : string :=
  let s := fmt_d z in zeros (w - String.length s) ++ s.

Definition usec_per_sec : Z := 1000000.
Definition sec_per_day : Z := 86400.
Definition usec_per_day : Z := sec_per_day * usec_per_sec.

(** [str(td)] for a timedelta of [us] microseconds, after
    [timedelta.__str__]: days are the floor, seconds and microseconds the
    non-negative remainder. *)
Definition str_timedelta (us : Z) : string :=
  let days := us / usec_per_day in
  let seconds := (us mod usec_per_day) / usec_per_sec in
  let microseconds := us mod usec_per_sec in
  let ss := seconds mod 60 in
  let mm := (seconds / 60) mod 60 in
  let hh := seconds / 3600 in
  let s := fmt_d hh ++ ":" ++ fmt_0d 2 mm ++ ":" ++ fmt_0d 2 ss in
  let s := if days =? 0 then s
           else fmt_d days ++ " day" ++ (if Z.abs days =? 1 then "" else "s")
                ++ ", " ++ s in
  if microseconds =? 0 then s else s ++ "." ++ fmt_0d 6 microseconds.

(** [timedelta(days=n)]: the constructor refuses more than 999999999 days. *)
Definition timedelta_days (n : Z) : res Z :=
  if Z.abs n <=? 999999999 then Ok (n * usec_per_day) else Exc OverflowError.

(** ** The configuration, as [parse_config] returns it

    [yaml.BaseLoader] yields strings, lists and dicts only.  A repository
    entry is a dict; the record keeps, for each key the script reads,
    whether it is there. *)

(** [repos[name]['key']]: the secret itself, or where the secret store
    keeps it. *)
Inductive key_entry : Type :=
| KeyInline (secret : string)
| KeyVault (path mountpoint : string).

Record repo : Type := {
  location : string;
  key : key_entry;
  duplicate : option string;
  max_age : option string;
  min_age : option string;
  includes : option (list string);
  excludes : option (list string)
}.

Record vault_data : Type := {
  server : string;
  role_id : string;
  secret_id : string
}.

Record config : Type := {
  resticLocation : string;
  repos : list (string * repo);
  vaultData : option vault_data     (* [''] when the file has no vault block *)
}.

(** ** The command line, as [create_args] returns it *)

Inductive action_choice : Type :=
| act_run | act_create | act_list | act_prune | act_check.

Record arguments : Type := {
  action : action_choice;
  repo_arg : string;               (* [args.repo], ['ALL_REPOS'] by default *)
  configFile : string;
  full : bool;
  age : bool;
  perfdata : bool;
  verbose : bool;
  quiet : bool;
  selfUpdate : bool;
  use_vault : bool                 (* [args.vault] *)
}.

(** ** The [restic] binding *)

Module restic.

(** The calls the script makes, with the arguments it passes. *)
Inductive call : Type :=
| self_update
| init (repo2 : option string) (copy_chunker_params : bool)
| forget (group_by keep_within : string) (prune : bool)
| check (read_data : bool)
| snapshots (group_by : string)
| copy (repo2 : string)
| backup (paths exclude_patterns : list string)
| unlock.

Definition is_unlock (c : call) : bool :=
  match c with
  | unlock => true
  | _ => false
  end.

(** What [restic.snapshots(group_by='host')] returns: a list of groups,
    each with its snapshots in the engine's order. *)
Record snapshot : Type := { time : string }.
Record group : Type := { host : string; snapshots_of : list snapshot }.

End restic.

(** One engine call, with what the engine reads besides its arguments:
    the module attribute [restic.repository] and the environment. *)
Record event : Type := {
  ev_repository : option string;
  ev_environ : list (string * string);
  ev_call : restic.call
}.

(** A credential as [get_repo_password] returns it: a string, or a dict
    (the secret store's record, or the [key] dict of the file). *)
Inductive credential : Type :=
| CredStr (s : string)
| CredDict (d : list (string * string)).

(** [read_secret_version(path, mount_point)] of a logged-in client:
    [vaultRead['data']['data']], or an exception. *)
Definition vault_client : Type := string -> string -> option (list (string * string)).

(** ** What the script imports

    The engine answers a call from the whole log up to and including that
    call, so that it may depend on earlier calls, on the repository and on
    the credentials in the environment. *)
Record world : Type := {
  (* the process *)
  initial_environ : list (string * string); (* [os.environ] when the script starts *)
  (* the restic binary behind the binding *)
  engine_ok : list event -> bool;           (* [false]: restic.errors.Error is raised *)
  check_value : list event -> bool;         (* truth value of what [restic.check] returns *)
  snapshots_value : list event -> list restic.group;
  (* hvac *)
  vault_login : vault_data -> option vault_client;
  (* datetime *)
  now : list event -> Z;                    (* [datetime.now()], by the calls made so far *)
  strptime : string -> option Z;            (* [datetime.strptime(s, '%Y-%m-%dT%H:%M:%S')] *)
  (* builtins *)
  int : string -> option Z                  (* [int(s)] *)
}.

(** ** The state of the run *)

Record state : Type := {
  environ : list (string * string);         (* [os.environ] *)
  binary_path : option string;              (* [restic.binary_path] *)
  repository : option string;               (* [restic.repository] *)
  trace : list event;                       (* engine calls, oldest first *)
  successMessageAccumulated : string;
  errorMessageAccumulated : string;
  scriptReturnValue : Z
}.

Definition with_environ (e : list (string * string)) (s : state) : state :=
  {| environ := e; binary_path := binary_path s; repository := repository s;
     trace := trace s;
     successMessageAccumulated := successMessageAccumulated s;
     errorMessageAccumulated := errorMessageAccumulated s;
     scriptReturnValue := scriptReturnValue s |}.

Definition with_restic (b r : option string) (s : state) : state :=
  {| environ := environ s; binary_path := b; repository := r;
     trace := trace s;
     successMessageAccumulated := successMessageAccumulated s;
     errorMessageAccumulated := errorMessageAccumulated s;
     scriptReturnValue := scriptReturnValue s |}.

Definition with_trace (t : list event) (s : state) : state :=
  {| environ := environ s; binary_path := binary_path s;
     repository := repository s; trace := t;
     successMessageAccumulated := successMessageAccumulated s;
     errorMessageAccumulated := errorMessageAccumulated s;
     scriptReturnValue := scriptReturnValue s |}.

Definition with_messages (ok err : string) (s : state) : state :=
  {| environ := environ s; binary_path := binary_path s;
     repository := repository s; trace := trace s;
     successMessageAccumulated := ok;
     errorMessageAccumulated := err;
     scriptReturnValue := scriptReturnValue s |}.

Definition with_scriptReturnValue (v : Z) (s : state) : state :=
  {| environ := environ s; binary_path := binary_path s;
     repository := repository s; trace := trace s;
     successMessageAccumulated := successMessageAccumulated s;
     errorMessageAccumulated := errorMessageAccumulated s;
     scriptReturnValue := v |}.

(** ** The monad of the main line *)

Definition M (A : Type) : Type := state -> res A * state.

Definition ret {A : Type} (a : A) : M A := fun s => (Ok a, s).

Definition raise {A : Type} (e : exn) : M A := fun s => (Exc e, s).

Definition bind {A B : Type} (m : M A) (k : A -> M B) : M B :=
  fun s =>
    match m s with
    | (Ok a, s') => k a s'
    | (Exc e, s') => (Exc e, s')
    end.

Definition lift {A : Type} (r : res A) : M A := fun s => (r, s).

Definition modify (f : state -> state) : M unit := fun s => (Ok tt, f s).

(** [try: m except restic.errors.Error: h] *)
Definition try_except_restic {A : Type} (m h : M A) : M A :=
  fun s =>
    match m s with
    | (Exc ResticError, s') => h s'
    | r => r
    end.

Declare Scope script_scope.
Delimit Scope script_scope with script.
Notation "x <- m ;; k" := (bind m (fun x => k))
  (at level 61, m at next level, right associativity) : script_scope.
Notation "m ;; k" := (bind m (fun _ => k))
  (at level 61, right associativity) : script_scope.

Open Scope script_scope.

(** ** [get_repo_password] (lines 97-108)

    [vault] is [None] for the default [False] and [Some] of the client's
    read operation otherwise.  Subscripting the inline secret, a string,
    with ['path'] is a [TypeError]. *)
Definition get_repo_password (repos : list (string * repo)) (currentRepo : string)
    (vault : option vault_client) : res credential :=
  match vault with
  | Some read_secret_version =>
      (let? r := subscript repos currentRepo in
       match key r with
       | KeyInline _ => Exc TypeError
       | KeyVault path mountpoint =>
           match read_secret_version path mountpoint with
           | None => Exc VaultError
           | Some data =>
               if String.eqb (slice0 3 (location r)) "b2:"
               then Ok (CredDict data)
               else (let? password := subscript data "password" in
                     Ok (CredStr password))%res
           end
       end)%res
  | None =>
      (let? r := subscript repos currentRepo in
       Ok match key r with
          | KeyInline secret => CredStr secret
          | KeyVault path mountpoint =>
              CredDict [("path", path); ("mountpoint", mountpoint)]
          end)%res
  end.

(** ** [end_script] (lines 111-133): the exit status and the lines printed *)
Definition end_script (returnCode : Z) (stdOut stdErr successMsg errorMsg : string)
    (quiet verbose : bool) : Z * list string :=
  if returnCode =? 2 then
    (2, ["CRITICAL - " ++ errorMsg; "Output: " ++ stdOut; "Error: " ++ stdErr])
  else if returnCode =? 1 then
    (1, List.app (if quiet then [] else ["WARNING - " ++ errorMsg])
                 (if verbose then ["Output: " ++ stdOut; "Error: " ++ stdErr] else []))
  else
    (0, List.app (if quiet then [] else ["OK - " ++ successMsg])
                 (if verbose
                  then ["------------------------------------------------------------------------------";
                        stdOut]
                  else [])).

(** [c[k]] on a credential: a string has no string subscript. *)
Definition credential_subscript (c : credential) (k : string) : res string :=
  match c with
  | CredStr _ => Exc TypeError
  | CredDict d => subscript d k
  end.

(** [l[len(l)-1]]: the last element, an [IndexError] on the empty list. *)
Definition last_of {A : Type} (l : list A) : option A :=
  nth_error l (List.length l - 1).

(** [r[name]] for an optional key of a repository entry. *)
Definition entry {A : Type} (field : option A) (name : string) : res A :=
  match field with
  | Some v => Ok v
  | None => Exc (KeyError name)
  end.

(** ** The age evaluation of the check action (lines 253-276)

    From the snapshot list [snaps], the time [currentTime] read at line
    263 and the value of [errorMessage] on entry, the value of
    [errorMessage] on leaving the block, or the exception raised in it.
    The last branch appends to [result.stdout]; no [result] is bound
    anywhere in the module. *)
Section AgeEvaluation.

Variable W : world.

Definition age_evaluation (currentRepo : string) (r : repo)
    (snaps : list restic.group) (currentTime : Z) (errorMessage : string)
  : res string :=
  (let? first_group := match nth_error snaps 0 with
                       | Some g => Ok g
                       | None => Exc IndexError
                       end in
   let group_snapshots := restic.snapshots_of first_group in
   let? oldest := match nth_error group_snapshots 0 with
                  | Some sn => Ok sn
                  | None => Exc IndexError
                  end in
   let oldestTime := restic.time oldest in
   let? newest := match last_of group_snapshots with
                  | Some sn => Ok sn
                  | None => Exc IndexError
                  end in
   let newestTime := restic.time newest in
   let? oldestTime := match strptime W (slice0 18 oldestTime) with
                      | Some t => Ok t
                      | None => Exc ValueError
                      end in
   let? newestTime := match strptime W (slice0 18 newestTime) with
                      | Some t => Ok t
                      | None => Exc ValueError
                      end in
   let oldDiff := currentTime - oldestTime in
   let newDiff := currentTime - newestTime in
   let? max_age_s := entry (max_age r) "max_age" in
   let? max_age_n := match int W max_age_s with
                     | Some n => Ok n
                     | None => Exc ValueError
                     end in
   let? max_age_td := timedelta_days max_age_n in
   let errorMessage :=
     if max_age_td <? oldDiff
     then "Oldest snapshot on " ++ currentRepo ++ " is " ++ str_timedelta oldDiff ++ " old"
     else errorMessage in
   let? min_age_s := entry (min_age r) "min_age" in
   let? min_age_n := match int W min_age_s with
                     | Some n => Ok n
                     | None => Exc ValueError
                     end in
   let? min_age_td := timedelta_days min_age_n in
   if min_age_td <? newDiff
   then Ok ("Newest snapshot on " ++ currentRepo ++ " is " ++ str_timedelta newDiff ++ " old")
   else Exc (NameError "result"))%res.

End AgeEvaluation.

(** The log entry of a call made in state [s]. *)
Definition event_of (c : restic.call) (s : state) : event :=
  {| ev_repository := repository s; ev_environ := environ s; ev_call := c |}.

(** ** The main line (lines 143-331) *)
Section Script.

Variable W : world.
Variable args : arguments.
Variable cfg : config.

(** *** Calls of the binding

    A call is logged with the repository and the environment it runs
    against, then answered by the engine. *)
Definition invoke (c : restic.call) : M unit :=
  fun s =>
    let s' := with_trace (trace s ++ [event_of c s]) s in
    if engine_ok W (trace s') then (Ok tt, s') else (Exc ResticError, s').

Definition restic_check (read_data : bool) : M bool :=
  invoke (restic.check read_data) ;;
  fun s => (Ok (check_value W (trace s)), s).

Definition restic_snapshots (group_by : string) : M (list restic.group) :=
  invoke (restic.snapshots group_by) ;;
  fun s => (Ok (snapshots_value W (trace s)), s).

Definition datetime_now : M Z := fun s => (Ok (now W (trace s)), s).

(** *** [os.environ] *)

(** [os.environ.set(k, v)].  The mapping has no attribute [set]: the
    call raises [AttributeError] when the method is looked up, so that
    the computation [v] of its second argument is never run.  It is kept
    as an argument to show what the line names. *)
Definition environ_set {A : Type} (k : string) (v : M A) : M unit :=
  raise AttributeError.

(** [os.environ[k]] *)
Definition environ_subscript (k : string) : M string :=
  fun s => (subscript (environ s) k, s).

(** [os.environ.get(k)] *)
Definition environ_get (k : string) : M (option string) :=
  fun s => (Ok (dict_get (environ s) k), s).

(** [os.environ[k] = v] for a string [v]: a value with a NUL byte is
    refused with [ValueError]. *)
Definition environ_setitem (k v : string) : M unit :=
  if has_nul v then raise ValueError
  else modify (fun s => with_environ (dict_set (environ s) k v) s).

Section Loop.

(** The logged-in client when [args.vault], else nothing (line 165). *)
Variable vault : option vault_client.

(** *** Lines 183-192: the repository's own credentials *)
Definition credentials (currentRepo : string) : M repo :=
  repoCredentials <- lift (get_repo_password (repos cfg) currentRepo vault) ;;
  r <- lift (subscript (repos cfg) currentRepo) ;;
  (if String.eqb (slice0 3 (location r)) "b2:" then
     environ_set "B2_ACCOUNT_ID" (lift (credential_subscript repoCredentials "keyID")) ;;
     environ_set "B2_ACCOUNT_KEY"
                 (lift (credential_subscript repoCredentials "applicationKey")) ;;
     environ_set "RESTIC_PASSWORD" (lift (credential_subscript repoCredentials "password"))
   else
     environ_set "RESTIC_PASSWORD" (ret repoCredentials)) ;;
  ret r.

(** *** Lines 194-206: the source's credentials of a duplicate *)
Definition duplicate_credentials (r : repo) : M unit :=
  match duplicate r with
  | Some duplicateSource =>
      repoCredentials2 <- lift (get_repo_password (repos cfg) duplicateSource vault) ;;
      environ_set "RESTIC_PASSWORD2" (ret repoCredentials2) ;;
      match action args with
      | act_run =>
          p1 <- environ_subscript "RESTIC_PASSWORD" ;;
          p2 <- environ_subscript "RESTIC_PASSWORD2" ;;
          environ_setitem "RESTIC_PASSWORD2" p1 ;;
          environ_setitem "RESTIC_PASSWORD" p2
      | _ => ret tt
      end
  | None => ret tt
  end.

(** *** Lines 214-227: create.  Returns [(successMessage, errorMessage)]. *)
Definition action_create (currentRepo : string) (r : repo) : M (string * string) :=
  init_args <- match duplicate r with
               | Some duplicateSource =>
                   src <- lift (subscript (repos cfg) duplicateSource) ;;
                   ret (Some (location src), true)
               | None => ret (None, false)
               end ;;
  invoke (restic.init (fst init_args) (snd init_args)) ;;
  ret ("Repository " ++ currentRepo ++ " successfully created at location "
         ++ location r,
       "Error creating repository " ++ location r).

(** *** Lines 229-236: prune *)
Definition action_prune (currentRepo : string) (r : repo) : M (string * string) :=
  keep <- lift (entry (max_age r) "max_age") ;;
  invoke (restic.forget "host" (keep ++ "d") true) ;;
  ret ("Repository " ++ currentRepo ++ " clean up successful",
       "Error cleaning up repository " ++ currentRepo).

(** *** Lines 238-283: check *)
Definition action_check (currentRepo : string) (r : repo) : M (string * string) :=
  let readData := if full args then true else false in
  let errorMessage := "" in
  checked <- restic_check readData ;;
  errorMessage <-
    (if negb checked then
       ret ("Error checking repository " ++ currentRepo)
     else if age args then
       try_except_restic
         (snaps <- restic_snapshots "host" ;;
          currentTime <- datetime_now ;;
          lift (age_evaluation W currentRepo r snaps currentTime errorMessage))
         (ret ("Error getting snapshots for repository " ++ currentRepo))
     else ret errorMessage) ;;
  ret ("Repository " ++ currentRepo ++ " is healthy", errorMessage).

(** *** Lines 285-290: list *)
Definition action_list (currentRepo : string) (r : repo) : M (string * string) :=
  restic_snapshots "host" ;;
  ret ("Snapshot list retreived for repository " ++ currentRepo,
       "Error listing snapshots on repository " ++ location r).

(** *** Lines 292-311: the last branch, copy or backup *)
Definition action_run (currentRepo : string) (r : repo) : M (string * string) :=
  match duplicate r with
  | Some duplicateSource =>
      src <- lift (subscript (repos cfg) duplicateSource) ;;
      modify (fun s => with_restic (binary_path s) (Some (location src)) s) ;;
      invoke (restic.copy (location r)) ;;
      environ_set "RESTIC_PASSWORD" (environ_get "RESTIC_PASSWORD2")
  | None =>
      let excludes := List.app ["lost+found"]
                        match excludes r with
                        | Some l => l
                        | None => []
                        end in
      paths <- lift (entry (includes r) "includes") ;;
      invoke (restic.backup paths excludes)
  end ;;
  ret ("Snapshot successfully created on repository " ++ currentRepo,
       "Error creating new snapshot on repository " ++ location r).

(** *** Lines 212-311: dispatch on the action

    The test for create is an [if] of its own; the chain that follows
    it starts with a second [if], so that create falls into its last
    branch as run does, and the messages of create are overwritten
    there. *)
Definition actions (currentRepo : string) (r : repo) : M (string * string) :=
  modify (with_restic (Some (resticLocation cfg)) (Some (location r))) ;;
  match action args with
  | act_create => _ <- action_create currentRepo r ;; ret tt
  | _ => ret tt
  end ;;
  match action args with
  | act_prune => action_prune currentRepo r
  | act_check => action_check currentRepo r
  | act_list => action_list currentRepo r
  | act_create | act_run => action_run currentRepo r
  end.

(** *** Lines 313-314 *)
Definition accumulate (messages : string * string) : M unit :=
  modify (fun s =>
            with_messages
              (successMessageAccumulated s ++ (fst messages ++ ". "))
              (errorMessageAccumulated s ++ (snd messages ++ ". ")) s).

(** *** Lines 212-314: the action of a repository and its two messages *)
Definition perform (currentRepo : string) (r : repo) : M unit :=
  messages <- actions currentRepo r ;;
  accumulate messages.

(** *** Lines 183-314: everything before the unlock *)
Definition primary (currentRepo : string) : M unit :=
  r <- credentials currentRepo ;;
  duplicate_credentials r ;;
  perform currentRepo r.

(** *** Lines 316-320 *)
Definition ensure_unlocked : M unit :=
  try_except_restic (invoke restic.unlock) (modify (with_scriptReturnValue 1)).

(** *** The body of the loop, and the loop (line 181) *)
Definition process (currentRepo : string) : M unit :=
  primary currentRepo ;; ensure_unlocked.

Fixpoint loop (reposToProcess : list string) : M unit :=
  match reposToProcess with
  | [] => ret tt
  | currentRepo :: rest => process currentRepo ;; loop rest
  end.

End Loop.

(** *** The whole run *)

Inductive outcome : Type :=
| Exited (status : Z) (printed : list string) (s : state)   (* [exit(status)] *)
| Crashed (e : exn) (s : state).                            (* an exception nobody caught *)

Definition initial_state : state :=
  {| environ := initial_environ W; binary_path := None; repository := None;
     trace := [];
     successMessageAccumulated := ""; errorMessageAccumulated := "";
     scriptReturnValue := 0 |}.

(** Lines 165-171.  Without a vault block [vaultData] is [''], and
    [vaultData['server']] a [TypeError]. *)
Definition open_vault : res (option vault_client) :=
  if use_vault args then
    match vaultData cfg with
    | None => Exc TypeError
    | Some vd =>
        match vault_login W vd with
        | Some client => Ok (Some client)
        | None => Exc VaultError
        end
    end
  else Ok None.

(** Lines 143-331.  The handler of line 152 names [restic.Error]; the
    binding has no such attribute (its errors are in [restic.errors], as
    lines 277 and 319 have it), so that a failed self-update ends in the
    [AttributeError] raised when the [except] clause is evaluated. *)
Definition main : outcome :=
  if negb (str_in (repo_arg args) (keys (repos cfg)))
     && negb (String.eqb (repo_arg args) "ALL_REPOS") then
    Exited 2 ["Repository " ++ repo_arg args ++ " absent from " ++ configFile args]
           initial_state
  else
    match (if selfUpdate args then invoke restic.self_update initial_state
           else (Ok tt, initial_state)) with
    | (Exc ResticError, s) => Crashed AttributeError s
    | (Exc e, s) => Crashed e s
    | (Ok _, s) =>
        let reposToProcess :=
          if String.eqb (repo_arg args) "ALL_REPOS" then keys (repos cfg)
          else [repo_arg args] in
        match open_vault with
        | Exc e => Crashed e s
        | Ok vault =>
            match loop vault reposToProcess s with
            | (Exc e, s') => Crashed e s'
            | (Ok _, s') =>
                let (status, printed) :=
                  end_script (scriptReturnValue s') "" ""
                             (successMessageAccumulated s')
                             (errorMessageAccumulated s')
                             (quiet args) (verbose args) in
                Exited status printed s'
            end
        end
    end.

End Script.

(** ** [parse_config] (lines 72-94) and the two calls of lines 140-141 *)

(** What [yaml.load] makes of the file: the three keys the function
    reads, each there or not. *)
Record config_values : Type := {
  restic_binary_location : option string;
  repos_value : option (list (string * repo));
  vault_value : option vault_data
}.

(** The file behind a path: absent, there but not to be opened or not to
    be loaded as a mapping, or loaded. *)
Inductive config_file : Type :=
| NoSuchFile
| Unreadable
| Document (values : config_values).

(** The list the function returns, or the line it prints before
    [exit(2)].  The bare [except] of line 88 catches the [KeyError] of a
    missing key like any failure to read. *)
Definition parse_config (configFile : string) (file : config_file)
  : config + list string :=
  match file with
  | NoSuchFile =>
      inr ["CRITICAL - Configuration file " ++ configFile ++ " does not exist"]
  | Unreadable =>
      inr ["CRITICAL - Error reading the configuration file " ++ configFile]
  | Document values =>
      match restic_binary_location values, repos_value values with
      | Some resticLocation, Some repos =>
          inl {| resticLocation := resticLocation; repos := repos;
                 vaultData := vault_value values |}
      | _, _ => inr ["CRITICAL - Error reading the configuration file " ++ configFile]
      end
  end.

(** What [parser.parse_args()] does with the command line: it returns the
    arguments, or prints the help and exits with 0, or prints a usage
    error (not on standard output) and exits with 2. *)
Inductive command_line : Type :=
| Parsed (args : arguments)
| HelpRequested (help : list string)
| UsageError.

(** Lines 140-331. *)
Definition script (W : world) (cli : command_line) (files : string -> config_file)
  : outcome :=
  match cli with
  | HelpRequested help => Exited 0 help (initial_state W)
  | UsageError => Exited 2 [] (initial_state W)
  | Parsed args =>
      match parse_config (configFile args) (files (configFile args)) with
      | inr printed => Exited 2 printed (initial_state W)
      | inl cfg => main W args cfg
      end
  end.

(** ** Reading an outcome *)

Definition final_state (o : outcome) : state :=
  match o with
  | Exited _ _ s => s
  | Crashed _ s => s
  end.

(** The status of the process: the argument of [exit], and 1 when the
    interpreter ends on an exception nobody caught. *)
Definition exit_status (o : outcome) : Z :=
  match o with
  | Exited status _ _ => status
  | Crashed _ _ => 1
  end.

Definition printed_lines (o : outcome) : list string :=
  match o with
  | Exited _ printed _ => printed
  | Crashed _ _ => []
  end.

Definition uncaught (o : outcome) : option exn :=
  match o with
  | Exited _ _ _ => None
  | Crashed e _ => Some e
  end.

Definition calls (s : state) : list restic.call := map ev_call (trace s).

(** How often [restic.unlock()] was called. *)
Definition unlock_calls (s : state) : nat :=
  List.length (filter restic.is_unlock (calls s)).

(** The call the engine is answering: the last of the log. *)
Definition current_call (log : list event) : option restic.call :=
  match rev log with
  | ev :: _ => Some (ev_call ev)
  | [] => None
  end.

(** ** The text of the error slot, for the actions that always fill it

    After lines 236, 290 and 311; create ends in the text of line 311 as
    run does. *)
Definition error_text (a : action_choice) (currentRepo : string) (r : repo) : string :=
  match a with
  | act_prune => "Error cleaning up repository " ++ currentRepo
  | act_list => "Error listing snapshots on repository " ++ location r
  | act_create | act_run => "Error creating new snapshot on repository " ++ location r
  | act_check => ""
  end.

(** ** A concrete world, for the examples

    [int] on an optionally signed run of ASCII digits and [strptime] on
    the fixed-width timestamps restic prints, on which they agree with
    Python's; on anything else they refuse. *)
Module Example.

Definition digit (c : ascii) : option Z :=
  let n := Z.of_nat (nat_of_ascii c) in
  if (48 <=? n) && (n <=? 57) then Some (n - 48) else None.

Fixpoint digits (s : string) (acc : Z) : option Z :=
  match s with
  | EmptyString => Some acc
  | String c s' =>
      match digit c with
      | Some d => digits s' (10 * acc + d)
      | None => None
      end
  end.

Definition number (s : string) : option Z :=
  match s with
  | EmptyString => None
  | _ => digits s 0
  end.

Definition parse_int (s : string) : option Z :=
  match s with
  | String "-" s' => option_map Z.opp (number s')
  | String "+" s' => number s'
  | _ => number s
  end.

(** Days from 1970-01-01 to the civil date [y-m-d] (proleptic Gregorian). *)
Definition days_from_civil (y m d : Z) : Z :=
  let y' := if m <=? 2 then y - 1 else y in
  let era := y' / 400 in
  let yoe := y' - era * 400 in
  let doy := (153 * (if 2 <? m then m - 3 else m + 9) + 2) / 5 + d - 1 in
  let doe := yoe * 365 + yoe / 4 - yoe / 100 + doy in
  era * 146097 + doe - 719468.

Definition days_in_month (y m : Z) : Z :=
  if m =? 2 then
    if ((y mod 4 =? 0) && negb (y mod 100 =? 0)) || (y mod 400 =? 0) then 29 else 28
  else if (m =? 4) || (m =? 6) || (m =? 9) || (m =? 11) then 30
  else 31.

(** ['%Y-%m-%dT%H:%M:%S'] on [YYYY-MM-DDTHH:MM:S] or [YYYY-MM-DDTHH:MM:SS],
    in microseconds since 1970-01-01T00:00:00. *)
Definition parse_timestamp (s : string) : option Z :=
  let len := String.length s in
  if negb ((len =? 18)%nat || (len =? 19)%nat) then None
  else if negb (String.eqb (substring 4 1 s) "-" && String.eqb (substring 7 1 s) "-"
                && String.eqb (substring 10 1 s) "T"
                && String.eqb (substring 13 1 s) ":"
                && String.eqb (substring 16 1 s) ":") then None
  else
    match number (substring 0 4 s), number (substring 5 2 s),
          number (substring 8 2 s), number (substring 11 2 s),
          number (substring 14 2 s), number (substring 17 (len - 17) s) with
    | Some y, Some m, Some d, Some hh, Some mm, Some ss =>
        if (1 <=? m) && (m <=? 12) && (1 <=? d) && (d <=? days_in_month y m)
           && (hh <? 24) && (mm <? 60) && (ss <? 60)
        then Some ((((days_from_civil y m d * 24 + hh) * 60 + mm) * 60 + ss)
                   * usec_per_sec)
        else None
    | _, _, _, _, _, _ => None
    end.

(** A world in which the engine fails exactly on the calls [fails]
    picks, [restic.check] returns [checked], [restic.snapshots] returns
    [snaps], no secret store answers, and the clock stands at [clock]. *)
Definition world_of (fails : restic.call -> bool) (checked : bool)
    (snaps : list restic.group) (clock : Z) : world :=
  {| initial_environ := [("PATH", "/usr/bin")];
     engine_ok := fun log => match current_call log with
                             | Some c => negb (fails c)
                             | None => true
                             end;
     check_value := fun _ => checked;
     snapshots_value := fun _ => snaps;
     vault_login := fun _ => None;
     now := fun _ => clock;
     strptime := parse_timestamp;
     int := parse_int |}.

Definition never : restic.call -> bool := fun _ => false.

Definition is_backup (c : restic.call) : bool :=
  match c with
  | restic.backup _ _ => true
  | _ => false
  end.

(** Three repositories: a standard one, a duplicate of it, and a
    duplicate whose source is not in the file. *)
Definition home : repo :=
  {| location := "/srv/restic/home"; key := KeyInline "hunter2";
     duplicate := None; max_age := Some "30"; min_age := Some "7";
     includes := Some ["/home"]; excludes := None |}.

Definition mirror : repo :=
  {| location := "/mnt/mirror"; key := KeyInline "s3cret";
     duplicate := Some "home"; max_age := Some "30"; min_age := Some "7";
     includes := None; excludes := None |}.

Definition orphan : repo :=
  {| location := "/mnt/orphan"; key := KeyInline "pa55";
     duplicate := Some "ghost"; max_age := Some "30"; min_age := Some "7";
     includes := None; excludes := None |}.

Definition cfg : config :=
  {| resticLocation := "/usr/bin/restic";
     repos := [("home", home); ("mirror", mirror)];
     vaultData := None |}.

Definition cfg_orphan : config :=
  {| resticLocation := "/usr/bin/restic";
     repos := [("home", home); ("orphan", orphan)];
     vaultData := None |}.

(** [restic-PyBM.py ACTION REPO], with [--age] or not. *)
Definition args_of (a : action_choice) (repo : string) (with_age : bool) : arguments :=
  {| action := a; repo_arg := repo; configFile := "backup.yml";
     full := false; age := with_age; perfdata := false;
     verbose := false; quiet := false; selfUpdate := false;
     use_vault := false |}.

Definition snap (t : string) : restic.snapshot := {| restic.time := t |}.

(** 2021-03-13, noon. *)
Definition noon : Z := 1615636800 * usec_per_sec.

(** Oldest 10 days and newest 1 day before [noon]. *)
Definition fresh : list restic.group :=
  [{| restic.host := "alpha";
      restic.snapshots_of := [snap "2021-03-03T12:00:00.000000000+00:00";
                              snap "2021-03-08T12:00:00.000000000+00:00";
                              snap "2021-03-12T12:00:00.000000000+00:00"] |}].

(** Oldest 40 days and newest 10 days before [noon]. *)
Definition stale : list restic.group :=
  [{| restic.host := "alpha";
      restic.snapshots_of := [snap "2021-02-01T12:00:00.000000000+00:00";
                              snap "2021-03-03T12:00:00.000000000+00:00"] |}].

(** As [stale], with one snapshot more in the middle and a second host
    whose snapshots are years old. *)
Definition stale_two_hosts : list restic.group :=
  [{| restic.host := "alpha";
      restic.snapshots_of := [snap "2021-02-01T12:00:00.000000000+00:00";
                              snap "2021-02-14T08:30:00.000000000+00:00";
                              snap "2021-03-03T12:00:00.000000000+00:00"] |};
   {| restic.host := "beta";
      restic.snapshots_of := [snap "2015-01-01T00:00:00.000000000+00:00"] |}].

(** *** Runs *)

(** An engine whose check finds the repository damaged. *)
Definition damaged : world := world_of never false [] noon.

(** An engine whose backup fails, one whose unlock fails, and one that
    fails nowhere. *)
Definition no_backup : world := world_of is_backup true [] noon.

Definition locked : world := world_of restic.is_unlock true [] noon.

Definition calm : world := world_of never true [] noon.

(** An engine that lists the snapshots of [fresh]. *)
Definition well_kept : world := world_of never true fresh noon.

Definition check_home : arguments := args_of act_check "home" false.

Definition check_age_home : arguments := args_of act_check "home" true.

Definition run_home : arguments := args_of act_run "home" false.

Definition list_all : arguments := args_of act_list "ALL_REPOS" false.

Definition run_all : arguments := args_of act_run "ALL_REPOS" false.

(** [check home] on the damaged repository, and [run home] with the
    failing backup. *)
Definition run_failed_check : outcome := main damaged check_home cfg.

Definition run_failed_backup : outcome := main no_backup run_home cfg.

(** A configuration file without repositories, and the files of a
    directory that has only [backup.yml]. *)
Definition cfg_empty : config :=
  {| resticLocation := "/usr/bin/restic"; repos := []; vaultData := None |}.

Definition only_backup_yml (values : config_values) : string -> config_file :=
  fun path => if String.eqb path "backup.yml" then Document values else NoSuchFile.

End Example.

(** ** Vocabulary of the proofs *)

(** Every run of [m] relates the state it starts in to the state it
    leaves, whether it returns or raises. *)
Definition frames (R : state -> state -> Prop) {A : Type} (m : M A) : Prop :=
  forall s, R s (snd (m s)).

(** Whatever [m] returns satisfies [Q]. *)
Definition yields {A : Type} (Q : A -> Prop) (m : M A) : Prop :=
  forall s a s', m s = (Ok a, s') -> Q a.

(** The two accumulated messages are untouched. *)
Definition keeps_messages (s s' : state) : Prop :=
  successMessageAccumulated s' = successMessageAccumulated s
  /\ errorMessageAccumulated s' = errorMessageAccumulated s.

(** The text of the success slot after each action (lines 235, 282, 289
    and 310; create ends with the text of line 310, as run does). *)
Definition success_text (a : action_choice) (currentRepo : string) : string :=
  match a with
  | act_prune => "Repository " ++ currentRepo ++ " clean up successful"
  | act_check => "Repository " ++ currentRepo ++ " is healthy"
  | act_list => "Snapshot list retreived for repository " ++ currentRepo
  | act_create | act_run => "Snapshot successfully created on repository " ++ currentRepo
  end.

(** [reposToProcess] as lines 157-162 build it. *)
Definition selected (args : arguments) (cfg : config) : list string :=
  if String.eqb (repo_arg args) "ALL_REPOS" then keys (repos cfg) else [repo_arg args].

(** The exception lines 183-192 end on for a repository: the one of
    [get_repo_password] if it raises, else the [AttributeError] of the
    first [os.environ.set]. *)
Definition credentials_exception (cfg : config) (vault : option vault_client)
    (currentRepo : string) : exn :=
  match get_repo_password (repos cfg) currentRepo vault with
  | Ok _ => AttributeError
  | Exc e => e
  end.

(** The repository named on the command line is neither in the
    configuration nor [ALL_REPOS] (line 144). *)
Definition unknown_repository (args : arguments) (cfg : config) : bool :=
  negb (str_in (repo_arg args) (keys (repos cfg)))
  && negb (String.eqb (repo_arg args) "ALL_REPOS").

(** ** A second configuration, with a secret store *)
Module Sample.

Definition secrets : vault_client :=
  fun path mountpoint =>
    if String.eqb path "backup/offsite" && String.eqb mountpoint "kv" then
      Some [("keyID", "0012ab"); ("applicationKey", "K001xyz");
            ("password", "correct horse")]
    else if String.eqb path "backup/nas" && String.eqb mountpoint "kv" then
      Some [("password", "battery staple")]
    else None.

Definition offsite : repo :=
  {| location := "b2:bucket:offsite"; key := KeyVault "backup/offsite" "kv";
     duplicate := None; max_age := Some "90"; min_age := Some "2";
     includes := Some ["/etc"; "/home"]; excludes := Some ["*.tmp"; ".cache"] |}.

Definition nas : repo :=
  {| location := "sftp:nas:/backup"; key := KeyVault "backup/nas" "kv";
     duplicate := None; max_age := Some "90"; min_age := Some "2";
     includes := Some ["/srv"]; excludes := None |}.

(** An object-storage location with the secret written in the file. *)
Definition plain : repo :=
  {| location := "b2:bucket:plain"; key := KeyInline "letmein";
     duplicate := None; max_age := None; min_age := None;
     includes := None; excludes := None |}.

Definition cfg : config :=
  {| resticLocation := "/usr/local/bin/restic";
     repos := [("offsite", offsite); ("nas", nas); ("plain", plain)];
     vaultData := Some {| server := "https://vault.example:8200";
                          role_id := "role"; secret_id := "secret" |} |}.

(** The world of [Example.world_of], with a secret store that lets the
    script in. *)
Definition world_of (fails : restic.call -> bool) (checked : bool)
    (snaps : list restic.group) (clock : Z) : world :=
  {| initial_environ := [("PATH", "/usr/bin")];
     engine_ok := fun log => match current_call log with
                             | Some c => negb (fails c)
                             | None => true
                             end;
     check_value := fun _ => checked;
     snapshots_value := fun _ => snaps;
     vault_login := fun _ => Some secrets;
     now := fun _ => clock;
     strptime := Example.parse_timestamp;
     int := Example.parse_int |}.

Definition calm : world := world_of Example.never true [] Example.noon.

Definition is_snapshots (c : restic.call) : bool :=
  match c with
  | restic.snapshots _ => true
  | _ => false
  end.

Definition is_self_update (c : restic.call) : bool :=
  match c with
  | restic.self_update => true
  | _ => false
  end.

(** [restic-PyBM.py ACTION REPO] with [-V], and with [-u] or not. *)
Definition args_of (a : action_choice) (repo : string) (update : bool) : arguments :=
  {| action := a; repo_arg := repo; configFile := "backup.yml";
     full := false; age := false; perfdata := false;
     verbose := false; quiet := false; selfUpdate := update;
     use_vault := true |}.

(** A group with the snapshots at [times]. *)
Definition group_at (times : list string) : restic.group :=
  {| restic.host := "alpha"; restic.snapshots_of := map Example.snap times |}.

End Sample.

(** * Properties *)

(** ** The monad *)

Lemma bind_ok {A B : Type} (m : M A) (k : A -> M B) (s s' : state) (b : B) :
  bind m k s = (Ok b, s') ->
  exists a s1, m s = (Ok a, s1) /\ k a s1 = (Ok b, s').
Proof.
  unfold bind. destruct (m s) as [[a | e] s1]; intros H.
  - exists a, s1. split; [reflexivity | exact H].
  - discriminate H.
Qed.

Lemma bind_step {A B : Type} (m : M A) (k : A -> M B) (s s1 : state) (a : A) :
  m s = (Ok a, s1) -> bind m k s = k a s1.
Proof. unfold bind. intros ->. reflexivity. Qed.

Lemma bind_raise {A B : Type} (m : M A) (k : A -> M B) (s s1 : state) (e : exn) :
  m s = (Exc e, s1) -> bind m k s = (Exc e, s1).
Proof. unfold bind. intros ->. reflexivity. Qed.

Lemma bind_modify {B : Type} (f : state -> state) (k : unit -> M B) (s : state) :
  bind (modify f) k s = k tt (f s).
Proof. reflexivity. Qed.

Lemma bind_ret {A B : Type} (a : A) (k : A -> M B) (s : state) :
  bind (ret a) k s = k a s.
Proof. reflexivity. Qed.

Lemma bind_lift {A B : Type} (r : res A) (k : A -> M B) (s : state) :
  bind (lift r) k s = match r with Ok a => k a s | Exc e => (Exc e, s) end.
Proof. unfold bind, lift. destruct r; reflexivity. Qed.

Lemma bind_assoc {A B C : Type} (m : M A) (k : A -> M B) (k' : B -> M C) (s : state) :
  bind (bind m k) k' s = bind m (fun a => bind (k a) k') s.
Proof. unfold bind. destruct (m s) as [[a | e] s1]; reflexivity. Qed.

(** ** What a computation leaves alone *)

Section Frames.

Variable R : state -> state -> Prop.
Hypothesis R_refl : forall s, R s s.
Hypothesis R_trans : forall s1 s2 s3, R s1 s2 -> R s2 s3 -> R s1 s3.

Lemma frames_ret {A : Type} (a : A) : frames R (ret a).
Proof. intros s. apply R_refl. Qed.

Lemma frames_raise {A : Type} (e : exn) : frames R (@raise A e).
Proof. intros s. apply R_refl. Qed.

Lemma frames_lift {A : Type} (r : res A) : frames R (lift r).
Proof. intros s. apply R_refl. Qed.

Lemma frames_read {A : Type} (f : state -> res A) : frames R (fun s => (f s, s)).
Proof. intros s. apply R_refl. Qed.

Lemma frames_bind {A B : Type} (m : M A) (k : A -> M B) :
  frames R m -> (forall a, frames R (k a)) -> frames R (bind m k).
Proof.
  intros Hm Hk s. unfold bind. specialize (Hm s).
  destruct (m s) as [[a | e] s1]; simpl in *.
  - eapply R_trans; [exact Hm | apply Hk].
  - exact Hm.
Qed.

Lemma frames_try {A : Type} (m h : M A) :
  frames R m -> frames R h -> frames R (try_except_restic m h).
Proof.
  intros Hm Hh s. unfold try_except_restic. specialize (Hm s).
  destruct (m s) as [[a | e] s1]; simpl in *; [exact Hm |].
  destruct e; try exact Hm.
  eapply R_trans; [exact Hm | apply Hh].
Qed.

Lemma frames_modify (f : state -> state) :
  (forall s, R s (f s)) -> frames R (modify f).
Proof. intros Hf s. apply Hf. Qed.

Lemma frames_environ_set {A : Type} (k : string) (v : M A) : frames R (environ_set k v).
Proof. unfold environ_set. apply frames_raise. Qed.

(** *** The actions: code that sets the attributes of the binding and
    calls the engine *)
Section Engine.

Hypothesis R_restic : forall b r s, R s (with_restic b r s).
Hypothesis R_trace : forall t s, R s (with_trace t s).

Variable W : world.

Lemma frames_invoke (c : restic.call) : frames R (invoke W c).
Proof.
  intros s. unfold invoke.
  destruct (engine_ok W _); simpl; apply R_trace.
Qed.

Lemma frames_restic_check (read_data : bool) : frames R (restic_check W read_data).
Proof.
  unfold restic_check.
  apply frames_bind; [apply frames_invoke | intros _; apply frames_read].
Qed.

Lemma frames_restic_snapshots (group_by : string) :
  frames R (restic_snapshots W group_by).
Proof.
  unfold restic_snapshots.
  apply frames_bind; [apply frames_invoke | intros _; apply frames_read].
Qed.

Lemma frames_action_check (args : arguments) (currentRepo : string) (r : repo) :
  frames R (action_check W args currentRepo r).
Proof.
  unfold action_check.
  apply frames_bind; [apply frames_restic_check | intros checked].
  apply frames_bind; [| intros ?; apply frames_ret].
  destruct (negb checked); [apply frames_ret |].
  destruct (age args); [| apply frames_ret].
  apply frames_try; [| apply frames_ret].
  apply frames_bind; [apply frames_restic_snapshots | intros snaps].
  apply frames_bind; [apply frames_read | intros t].
  apply frames_lift.
Qed.

Lemma frames_action_run (cfg : config) (currentRepo : string) (r : repo) :
  frames R (action_run W cfg currentRepo r).
Proof.
  unfold action_run.
  apply frames_bind; [| intros ?; apply frames_ret].
  destruct (duplicate r) as [d |].
  - apply frames_bind; [apply frames_lift | intros src].
    apply frames_bind; [apply frames_modify; intros s; apply R_restic | intros _].
    apply frames_bind; [apply frames_invoke | intros _].
    apply frames_environ_set.
  - apply frames_bind; [apply frames_lift | intros paths].
    apply frames_invoke.
Qed.

Lemma frames_action_create (cfg : config) (currentRepo : string) (r : repo) :
  frames R (action_create W cfg currentRepo r).
Proof.
  unfold action_create.
  apply frames_bind.
  - destruct (duplicate r) as [d |]; [| apply frames_ret].
    apply frames_bind; [apply frames_lift | intros src; apply frames_ret].
  - intros init_args.
    apply frames_bind; [apply frames_invoke | intros _; apply frames_ret].
Qed.

Lemma frames_actions (args : arguments) (cfg : config) (currentRepo : string)
    (r : repo) :
  frames R (actions W args cfg currentRepo r).
Proof.
  unfold actions.
  apply frames_bind; [apply frames_modify; intros s; apply R_restic | intros _].
  apply frames_bind.
  - destruct (action args); try apply frames_ret.
    apply frames_bind; [apply frames_action_create | intros ?; apply frames_ret].
  - intros _. destruct (action args).
    + apply frames_action_run.
    + apply frames_action_run.
    + unfold action_list.
      apply frames_bind; [apply frames_restic_snapshots | intros ?; apply frames_ret].
    + unfold action_prune.
      apply frames_bind; [apply frames_lift | intros keep].
      apply frames_bind; [apply frames_invoke | intros ?; apply frames_ret].
    + apply frames_action_check.
Qed.

End Engine.

End Frames.

Lemma keeps_messages_refl (s : state) : keeps_messages s s.
Proof. split; reflexivity. Qed.

Lemma keeps_messages_trans (s1 s2 s3 : state) :
  keeps_messages s1 s2 -> keeps_messages s2 s3 -> keeps_messages s1 s3.
Proof. intros [H1 H2] [H3 H4]. split; congruence. Qed.

(** The actions never write the two accumulated messages. *)
Lemma actions_keep_messages (W : world) (args : arguments) (cfg : config)
    (currentRepo : string) (r : repo) :
  frames keeps_messages (actions W args cfg currentRepo r).
Proof.
  apply frames_actions.
  - exact keeps_messages_refl.
  - exact keeps_messages_trans.
  - intros b r' s. split; reflexivity.
  - intros t s. split; reflexivity.
Qed.

(** ** What the parts return *)

Lemma yields_bind {A B : Type} (Q : B -> Prop) (m : M A) (k : A -> M B) :
  (forall a, yields Q (k a)) -> yields Q (bind m k).
Proof.
  intros Hk s b s' H. apply bind_ok in H. destruct H as (a & s1 & _ & H).
  exact (Hk a s1 b s' H).
Qed.

Lemma yields_ret {A : Type} (Q : A -> Prop) (a : A) : Q a -> yields Q (ret a).
Proof. intros H s a' s' E. unfold ret in E. inversion E. subst. exact H. Qed.

(** Every action but check leaves [errorMessage] at its fixed text. *)
Lemma actions_yield_error_text (W : world) (args : arguments) (cfg : config)
    (currentRepo : string) (r : repo) :
  action args <> act_check ->
  yields (fun messages => snd messages = error_text (action args) currentRepo r)
         (actions W args cfg currentRepo r).
Proof.
  intros Hne. unfold actions.
  apply yields_bind. intros _. apply yields_bind. intros _.
  destruct (action args); try contradiction;
    unfold action_run, action_list, action_prune;
    repeat (apply yields_bind; intros ?); apply yields_ret; reflexivity.
Qed.

(** Every action leaves [successMessage] at its fixed text. *)
Lemma actions_yield_success_text (W : world) (args : arguments) (cfg : config)
    (currentRepo : string) (r : repo) :
  yields (fun messages => fst messages = success_text (action args) currentRepo)
         (actions W args cfg currentRepo r).
Proof.
  unfold actions.
  apply yields_bind. intros _. apply yields_bind. intros _.
  destruct (action args);
    unfold action_run, action_list, action_prune, action_check;
    repeat (apply yields_bind; intros ?); apply yields_ret; reflexivity.
Qed.

Lemma error_text_prefix (a : action_choice) (currentRepo : string) (r : repo) :
  a <> act_check -> String.prefix "Error " (error_text a currentRepo r) = true.
Proof. destruct a; intros H; try contradiction; reflexivity. Qed.

(** ** Calls of the engine *)

Lemma invoke_ok (W : world) (c : restic.call) (s : state) :
  engine_ok W (trace s ++ [event_of c s]) = true ->
  invoke W c s = (Ok tt, with_trace (trace s ++ [event_of c s]) s).
Proof. intros H. unfold invoke. cbn [trace with_trace]. rewrite H. reflexivity. Qed.

Lemma invoke_fails (W : world) (c : restic.call) (s : state) :
  engine_ok W (trace s ++ [event_of c s]) = false ->
  invoke W c s = (Exc ResticError, with_trace (trace s ++ [event_of c s]) s).
Proof. intros H. unfold invoke. cbn [trace with_trace]. rewrite H. reflexivity. Qed.

Lemma restic_check_ok (W : world) (read_data : bool) (s : state) :
  engine_ok W (trace s ++ [event_of (restic.check read_data) s]) = true ->
  restic_check W read_data s
  = (Ok (check_value W (trace s ++ [event_of (restic.check read_data) s])),
     with_trace (trace s ++ [event_of (restic.check read_data) s]) s).
Proof.
  intros H. unfold restic_check.
  rewrite (bind_step _ _ _ _ _ (invoke_ok _ _ _ H)). reflexivity.
Qed.

Lemma restic_snapshots_ok (W : world) (group_by : string) (s : state) :
  engine_ok W (trace s ++ [event_of (restic.snapshots group_by) s]) = true ->
  restic_snapshots W group_by s
  = (Ok (snapshots_value W (trace s ++ [event_of (restic.snapshots group_by) s])),
     with_trace (trace s ++ [event_of (restic.snapshots group_by) s]) s).
Proof.
  intros H. unfold restic_snapshots.
  rewrite (bind_step _ _ _ _ _ (invoke_ok _ _ _ H)). reflexivity.
Qed.

Lemma restic_snapshots_fails (W : world) (group_by : string) (s : state) :
  engine_ok W (trace s ++ [event_of (restic.snapshots group_by) s]) = false ->
  restic_snapshots W group_by s
  = (Exc ResticError,
     with_trace (trace s ++ [event_of (restic.snapshots group_by) s]) s).
Proof.
  intros H. unfold restic_snapshots.
  apply bind_raise. apply invoke_fails. exact H.
Qed.

Lemma current_call_last (log : list event) (ev : event) :
  current_call (log ++ [ev]) = Some (ev_call ev).
Proof. unfold current_call. rewrite rev_unit. reflexivity. Qed.

(** ** Lines 183-192 never return

    Whatever the repository, the credentials block ends on an exception
    and leaves the state as it found it; so does the body of the loop,
    and so does the loop over any list. *)

Lemma get_repo_password_entry (cfg : config) (vault : option vault_client)
    (currentRepo : string) (c : credential) :
  get_repo_password (repos cfg) currentRepo vault = Ok c ->
  exists r, dict_get (repos cfg) currentRepo = Some r.
Proof.
  unfold get_repo_password, subscript.
  destruct vault; destruct (dict_get (repos cfg) currentRepo) as [r |];
    simpl; intros H; try discriminate H; exists r; reflexivity.
Qed.

Lemma credentials_raise (cfg : config) (vault : option vault_client)
    (currentRepo : string) (s : state) :
  credentials cfg vault currentRepo s
  = (Exc (credentials_exception cfg vault currentRepo), s).
Proof.
  unfold credentials, credentials_exception. rewrite bind_lift.
  destruct (get_repo_password (repos cfg) currentRepo vault) as [c | e] eqn:Hget;
    [| reflexivity].
  destruct (get_repo_password_entry _ _ _ _ Hget) as [r Hr].
  rewrite bind_lift. unfold subscript. rewrite Hr.
  destruct (String.eqb (slice0 3 (location r)) "b2:"); reflexivity.
Qed.

Lemma process_raises (W : world) (args : arguments) (cfg : config)
    (vault : option vault_client) (currentRepo : string) (s : state) :
  process W args cfg vault currentRepo s
  = (Exc (credentials_exception cfg vault currentRepo), s).
Proof.
  unfold process, primary.
  apply bind_raise. apply bind_raise. apply credentials_raise.
Qed.

Lemma loop_raises (W : world) (args : arguments) (cfg : config)
    (vault : option vault_client) (currentRepo : string) (rest : list string)
    (s : state) :
  loop W args cfg vault (currentRepo :: rest) s
  = (Exc (credentials_exception cfg vault currentRepo), s).
Proof. cbn [loop]. apply bind_raise. apply process_raises. Qed.

Lemma loop_state (W : world) (args : arguments) (cfg : config)
    (vault : option vault_client) (reposToProcess : list string) (s : state) :
  snd (loop W args cfg vault reposToProcess s) = s.
Proof.
  destruct reposToProcess as [| currentRepo rest]; [reflexivity |].
  rewrite loop_raises. reflexivity.
Qed.

(** The run from line 143 on, case by case. *)
Lemma main_unknown (W : world) (args : arguments) (cfg : config) :
  unknown_repository args cfg = true ->
  main W args cfg
  = Exited 2 ["Repository " ++ repo_arg args ++ " absent from " ++ configFile args]
           (initial_state W).
Proof. unfold unknown_repository, main. intros ->. reflexivity. Qed.

Lemma main_known (W : world) (args : arguments) (cfg : config) :
  unknown_repository args cfg = false ->
  (exists e s, main W args cfg = Crashed e s
               /\ (forall c, In c (calls s) -> c = restic.self_update))
  \/ (selected args cfg = []
      /\ exists s, main W args cfg
                   = Exited 0 (List.app (if quiet args then [] else ["OK - "])
                                 (if verbose args
                                  then ["------------------------------------------------------------------------------";
                                        ""]
                                  else []))
                            s
                   /\ (forall c, In c (calls s) -> c = restic.self_update)).
Proof.
  unfold unknown_repository, main, selected. intros ->.
  assert (Hcalls : forall s, (s = initial_state W
                              \/ s = with_trace [event_of restic.self_update (initial_state W)]
                                                (initial_state W)) ->
                             forall c, In c (calls s) -> c = restic.self_update).
  { intros s [-> | ->] c Hc; cbn in Hc; [contradiction |].
    destruct Hc as [<- | []]. reflexivity. }
  assert (Hfirst : exists s1,
             (s1 = initial_state W
              \/ s1 = with_trace [event_of restic.self_update (initial_state W)]
                                 (initial_state W))
             /\ ((if selfUpdate args then invoke W restic.self_update (initial_state W)
                  else (Ok tt, initial_state W)) = (Ok tt, s1)
                 \/ (if selfUpdate args then invoke W restic.self_update (initial_state W)
                     else (Ok tt, initial_state W)) = (Exc ResticError, s1))).
  { destruct (selfUpdate args).
    - unfold invoke.
      change (trace (initial_state W) ++ [?ev])%list with [ev].
      cbn [trace with_trace].
      destruct (engine_ok W _); eexists; split; try (right; reflexivity); auto.
    - eexists; split; [left; reflexivity | left; reflexivity]. }
  destruct Hfirst as (s1 & Hs1 & [-> | ->]).
  2:{ left. exists AttributeError, s1. split; [reflexivity | exact (Hcalls s1 Hs1)]. }
  destruct (open_vault W args cfg) as [vault | e].
  2:{ left. exists e, s1. split; [reflexivity | exact (Hcalls s1 Hs1)]. }
  destruct (if String.eqb (repo_arg args) "ALL_REPOS" then keys (repos cfg)
            else [repo_arg args]) as [| currentRepo rest].
  - right. split; [reflexivity |].
    exists s1. split; [| exact (Hcalls s1 Hs1)].
    cbn [loop ret]. destruct Hs1 as [-> | ->]; cbn; reflexivity.
  - left. rewrite loop_raises.
    eexists _, s1. split; [reflexivity | exact (Hcalls s1 Hs1)].
Qed.

(** ** The exit status (C1) *)

(** C1, on the failing input [check home] with a damaged repository.  The
    claim wants the failed action to count as CRITICAL, exit status 2.
    The run ends at line 192 instead, on the [AttributeError] of
    [os.environ.set]: process status 1, nothing printed, no engine call
    made.  Lines 212-320 taken by themselves do not fare better: from the
    initial state they call check and unlock, write the error text of
    line 246 and leave [scriptReturnValue] at 0, on which [end_script]
    prints the OK line and exits with 0. *)
Theorem damaged_repository_is_never_critical :
  uncaught Example.run_failed_check = Some AttributeError
  /\ exit_status Example.run_failed_check = 1
  /\ printed_lines Example.run_failed_check = []
  /\ calls (final_state Example.run_failed_check) = []
  /\ (let block := (perform Example.damaged Example.check_home Example.cfg
                            "home" Example.home ;;
                    ensure_unlocked Example.damaged)
                     (initial_state Example.damaged) in
      fst block = Ok tt
      /\ calls (snd block) = [restic.check false; restic.unlock]
      /\ errorMessageAccumulated (snd block) = "Error checking repository home. "
      /\ scriptReturnValue (snd block) = 0
      /\ end_script (scriptReturnValue (snd block)) "" ""
                    (successMessageAccumulated (snd block))
                    (errorMessageAccumulated (snd block)) false false
         = (0, ["OK - Repository home is healthy. "])).
Proof. vm_compute. repeat split. Qed.

(** ** The age evaluation (C2, C3, C9) *)

(** C2, on the failing input.  The claim wants OK with both ages in the
    detail when the oldest snapshot is within [max_age] and the newest
    within [min_age].  With the oldest 10 days and the newest 1 day old
    against 30 and 7, the evaluation reaches its last branch, which
    appends the two ages to [result.stdout]; [result] is unbound, and the
    evaluation raises [NameError].  The handler of line 277 does not
    catch it: the check action raises it too, after the calls check and
    snapshots. *)
Theorem fresh_snapshots_raise_NameError :
  age_evaluation Example.well_kept "home" Example.home Example.fresh Example.noon ""
  = Exc (NameError "result")
  /\ (let block := action_check Example.well_kept Example.check_age_home
                                "home" Example.home
                                (initial_state Example.well_kept) in
      fst block = Exc (NameError "result")
      /\ calls (snd block) = [restic.check false; restic.snapshots "host"]).
Proof. vm_compute. repeat split. Qed.

(** C3.  Whenever the age of the newest snapshot exceeds [min_age] days,
    the evaluation returns the text "Newest snapshot on <repo> is <age>
    old", whatever [errorMessage] held before and whether or not the
    oldest snapshot exceeded [max_age] (in which case the text "Oldest
    snapshot on ..." written just before is replaced).  The hypotheses say
    that the evaluation gets as far as the second comparison: the first
    group has snapshots, both timestamps parse, both thresholds are
    integers a [timedelta] accepts. *)
Theorem newest_message_wins :
  forall (W : world) (currentRepo : string) (r : repo)
         (g : restic.group) (rest : list restic.group)
         (oldest newest : restic.snapshot)
         (oldestTime newestTime currentTime : Z)
         (max_age_s min_age_s : string) (max_age_n min_age_n : Z)
         (errorMessage : string),
    nth_error (restic.snapshots_of g) 0 = Some oldest ->
    last_of (restic.snapshots_of g) = Some newest ->
    strptime W (slice0 18 (restic.time oldest)) = Some oldestTime ->
    strptime W (slice0 18 (restic.time newest)) = Some newestTime ->
    max_age r = Some max_age_s ->
    int W max_age_s = Some max_age_n ->
    Z.abs max_age_n <= 999999999 ->
    min_age r = Some min_age_s ->
    int W min_age_s = Some min_age_n ->
    Z.abs min_age_n <= 999999999 ->
    min_age_n * usec_per_day < currentTime - newestTime ->
    age_evaluation W currentRepo r (g :: rest) currentTime errorMessage
    = Ok ("Newest snapshot on " ++ currentRepo ++ " is "
            ++ str_timedelta (currentTime - newestTime) ++ " old").
Proof.
  intros W currentRepo r g rest oldest newest oldestTime newestTime currentTime
         max_age_s min_age_s max_age_n min_age_n errorMessage
         Hold Hnew Hto Htn Hmax Himax Hbmax Hmin Himin Hbmin Hlate.
  unfold age_evaluation. simpl nth_error at 1. cbn [res_bind].
  rewrite Hold, Hnew. cbn [res_bind].
  rewrite Hto, Htn. cbn [res_bind].
  rewrite Hmax, Hmin. cbn [entry res_bind].
  rewrite Himax, Himin. cbn [res_bind].
  unfold timedelta_days.
  apply Z.leb_le in Hbmax, Hbmin. rewrite Hbmax, Hbmin. cbn [res_bind].
  apply Z.ltb_lt in Hlate. rewrite Hlate. reflexivity.
Qed.

(** The oldest snapshot 40 days old against 30 and the newest 10 days old
    against 7: both thresholds are exceeded, the text is the newest's. *)
Lemma newest_message_wins_witness :
  age_evaluation (Example.world_of Example.never true Example.stale Example.noon)
                 "home" Example.home Example.stale Example.noon ""
  = Ok "Newest snapshot on home is 10 days, 0:00:00 old".
Proof.
  exact (newest_message_wins
           (Example.world_of Example.never true Example.stale Example.noon)
           "home" Example.home
           {| restic.host := "alpha";
              restic.snapshots_of :=
                [Example.snap "2021-02-01T12:00:00.000000000+00:00";
                 Example.snap "2021-03-03T12:00:00.000000000+00:00"] |}
           []
           (Example.snap "2021-02-01T12:00:00.000000000+00:00")
           (Example.snap "2021-03-03T12:00:00.000000000+00:00")
           1612180800000000 1614772800000000 Example.noon
           "30" "7" 30 7 ""
           eq_refl eq_refl eq_refl eq_refl eq_refl eq_refl
           ltac:(vm_compute; discriminate)
           eq_refl eq_refl
           ltac:(vm_compute; discriminate)
           eq_refl).
Defined.

(** C9.  The evaluation reads the snapshot list at [snaps[0]] only, and
    there only the first and the last snapshot: two lists whose first
    groups agree on these two entries get the same result, whatever else
    the first groups hold and whatever groups follow. *)
Theorem age_reads_first_group_only :
  forall (W : world) (currentRepo : string) (r : repo)
         (g g' : restic.group) (rest rest' : list restic.group)
         (currentTime : Z) (errorMessage : string),
    nth_error (restic.snapshots_of g) 0 = nth_error (restic.snapshots_of g') 0 ->
    last_of (restic.snapshots_of g) = last_of (restic.snapshots_of g') ->
    age_evaluation W currentRepo r (g :: rest) currentTime errorMessage
    = age_evaluation W currentRepo r (g' :: rest') currentTime errorMessage.
Proof.
  intros W currentRepo r g g' rest rest' currentTime errorMessage Hfirst Hlast.
  unfold age_evaluation. simpl nth_error at 1. simpl nth_error at 3.
  cbn [res_bind]. rewrite Hfirst, Hlast. reflexivity.
Qed.

(** A third snapshot in the middle of the first group and a second host
    with a snapshot of 2015 change nothing. *)
Lemma age_reads_first_group_only_witness :
  age_evaluation (Example.world_of Example.never true Example.stale Example.noon)
                 "home" Example.home
                 ({| restic.host := "alpha";
                     restic.snapshots_of :=
                       [Example.snap "2021-02-01T12:00:00.000000000+00:00";
                        Example.snap "2021-03-03T12:00:00.000000000+00:00"] |} :: [])
                 Example.noon ""
  = age_evaluation (Example.world_of Example.never true Example.stale Example.noon)
                   "home" Example.home
                   ({| restic.host := "alpha";
                       restic.snapshots_of :=
                         [Example.snap "2021-02-01T12:00:00.000000000+00:00";
                          Example.snap "2021-02-14T08:30:00.000000000+00:00";
                          Example.snap "2021-03-03T12:00:00.000000000+00:00"] |}
                      :: [{| restic.host := "beta";
                             restic.snapshots_of :=
                               [Example.snap "2015-01-01T00:00:00.000000000+00:00"] |}])
                   Example.noon "".
Proof.
  apply age_reads_first_group_only; reflexivity.
Defined.

(** ** Failures inside the loop body (C4, C5) *)

(** C4, on the failing input.  The claim wants an empty snapshot list
    recorded as a CRITICAL outcome and never a crash.  With [--age], a
    check that succeeded and an engine that lists no snapshot, [snaps[0]]
    at line 254 raises [IndexError]; the handler of line 277 catches
    restic errors only, and the check action ends on the [IndexError],
    after the calls check and snapshots and without an error text. *)
Theorem empty_snapshot_list_crashes :
  age_evaluation Example.calm "home" Example.home [] Example.noon "" = Exc IndexError
  /\ (let block := action_check Example.calm Example.check_age_home
                                "home" Example.home (initial_state Example.calm) in
      fst block = Exc IndexError
      /\ calls (snd block) = [restic.check false; restic.snapshots "host"]).
Proof. vm_compute. repeat split. Qed.

(** C5, on the failing input [run home] with an engine whose backup
    fails.  The claim wants one unlock per repository, whatever the
    primary action did.  The run ends at line 192, on the
    [AttributeError] of [os.environ.set], before any engine call: the
    unlock is called 0 times.  Lines 212-320 taken by themselves miss
    the unlock as well: the restic error of the backup at line 307 is
    caught nowhere, and the block ends on it with the backup as its only
    call. *)
Theorem failed_backup_skips_unlock :
  uncaught Example.run_failed_backup = Some AttributeError
  /\ exit_status Example.run_failed_backup = 1
  /\ calls (final_state Example.run_failed_backup) = []
  /\ unlock_calls (final_state Example.run_failed_backup) = 0%nat
  /\ (let block := (perform Example.no_backup Example.run_home Example.cfg
                            "home" Example.home ;;
                    ensure_unlocked Example.no_backup)
                     (initial_state Example.no_backup) in
      fst block = Exc ResticError
      /\ calls (snd block) = [restic.backup ["/home"] ["lost+found"]]
      /\ unlock_calls (snd block) = 0%nat).
Proof. vm_compute. repeat split. Qed.

(** ** The unlock (C6) *)

(** C6.  Lines 316-320, from any state: when the engine refuses the
    unlock, the restic error is caught and the block returns normally,
    with [scriptReturnValue] at 1 and the unlock as the one call added to
    the log.  What follows the block in the loop, the passes over the
    remaining repositories, is run from that state; nothing they do
    changes the status again, and on the value 1 [end_script] exits with
    1, for any messages and flags. *)
Theorem unlock_failure_is_a_warning :
  forall (W : world) (s : state),
    engine_ok W (trace s ++ [event_of restic.unlock s]) = false ->
    let s' := with_scriptReturnValue
                1 (with_trace (trace s ++ [event_of restic.unlock s]) s) in
    ensure_unlocked W s = (Ok tt, s')
    /\ scriptReturnValue s' = 1
    /\ (forall (args : arguments) (cfg : config) (vault : option vault_client)
               (rest : list string),
           (ensure_unlocked W ;; loop W args cfg vault rest) s
           = loop W args cfg vault rest s'
           /\ scriptReturnValue (snd (loop W args cfg vault rest s')) = 1)
    /\ (forall (stdOut stdErr successMsg errorMsg : string) (quiet verbose : bool),
           fst (end_script (scriptReturnValue s') stdOut stdErr successMsg errorMsg
                           quiet verbose) = 1).
Proof.
  intros W s Hfail s'.
  assert (Hunlock : ensure_unlocked W s = (Ok tt, s')).
  { unfold ensure_unlocked, try_except_restic.
    rewrite (invoke_fails W restic.unlock s Hfail). reflexivity. }
  split; [exact Hunlock |]. split; [reflexivity |]. split.
  - intros args cfg vault rest. split.
    + exact (bind_step _ (fun _ => loop W args cfg vault rest) _ _ _ Hunlock).
    + rewrite loop_state. reflexivity.
  - intros stdOut stdErr successMsg errorMsg quiet verbose. reflexivity.
Qed.

(** The unlock of [home] in a world where every unlock fails. *)
Lemma unlock_failure_is_a_warning_witness :
  let s := initial_state Example.locked in
  let s' := with_scriptReturnValue
              1 (with_trace (trace s ++ [event_of restic.unlock s]) s) in
  ensure_unlocked Example.locked s = (Ok tt, s')
  /\ scriptReturnValue s' = 1
  /\ (forall (args : arguments) (cfg : config) (vault : option vault_client)
             (rest : list string),
         (ensure_unlocked Example.locked ;; loop Example.locked args cfg vault rest) s
         = loop Example.locked args cfg vault rest s'
         /\ scriptReturnValue (snd (loop Example.locked args cfg vault rest s')) = 1)
  /\ (forall (stdOut stdErr successMsg errorMsg : string) (quiet verbose : bool),
         fst (end_script (scriptReturnValue s') stdOut stdErr successMsg errorMsg
                         quiet verbose) = 1).
Proof.
  intros s.
  apply (unlock_failure_is_a_warning Example.locked s).
  vm_compute. reflexivity.
Defined.

(** ** Credentials (C7, C8) *)

(** C7.  Without a secret store, for a repository whose key is an inline
    secret, [get_repo_password] returns exactly that secret, whatever the
    location is, a location without the prefix [b2:] included. *)
Theorem inline_secret_is_the_credential :
  forall (cfg : config) (currentRepo : string) (r : repo) (secret : string),
    dict_get (repos cfg) currentRepo = Some r ->
    key r = KeyInline secret ->
    get_repo_password (repos cfg) currentRepo None = Ok (CredStr secret).
Proof.
  intros cfg currentRepo r secret Hr Hkey.
  unfold get_repo_password, subscript. rewrite Hr. cbn [res_bind].
  rewrite Hkey. reflexivity.
Qed.

Lemma inline_secret_is_the_credential_witness :
  String.eqb (slice0 3 (location Example.home)) "b2:" = false
  /\ get_repo_password (repos Example.cfg) "home" None = Ok (CredStr "hunter2").
Proof.
  split; [reflexivity |].
  exact (inline_secret_is_the_credential Example.cfg "home" Example.home "hunter2"
                                         eq_refl eq_refl).
Defined.



(** ** The accumulated error message (C10) *)

(** The age evaluation returns one text only. *)
Lemma age_evaluation_text (W : world) (currentRepo : string) (r : repo)
    (snaps : list restic.group) (currentTime : Z) (errorMessage message : string) :
  age_evaluation W currentRepo r snaps currentTime errorMessage = Ok message ->
  exists newDiff : Z,
    message = "Newest snapshot on " ++ currentRepo ++ " is "
                ++ str_timedelta newDiff ++ " old".
Proof.
  intros H. unfold age_evaluation in H.
  destruct (nth_error snaps 0) as [g |]; [| discriminate H]. cbn [res_bind] in H.
  destruct (nth_error (restic.snapshots_of g) 0) as [o |]; [| discriminate H].
  cbn [res_bind] in H.
  destruct (last_of (restic.snapshots_of g)) as [n |]; [| discriminate H].
  cbn [res_bind] in H.
  destruct (strptime W (slice0 18 (restic.time o))) as [to |]; [| discriminate H].
  cbn [res_bind] in H.
  destruct (strptime W (slice0 18 (restic.time n))) as [tn |]; [| discriminate H].
  cbn [res_bind] in H.
  destruct (entry (max_age r) "max_age") as [ma |]; [| discriminate H].
  cbn [res_bind] in H.
  destruct (int W ma) as [a |]; [| discriminate H]. cbn [res_bind] in H.
  destruct (timedelta_days a) as [ta |]; [| discriminate H]. cbn [res_bind] in H.
  destruct (entry (min_age r) "min_age") as [mi |]; [| discriminate H].
  cbn [res_bind] in H.
  destruct (int W mi) as [b |]; [| discriminate H]. cbn [res_bind] in H.
  destruct (timedelta_days b) as [tb |]; [| discriminate H]. cbn [res_bind] in H.
  destruct (tb <? currentTime - tn); [| discriminate H].
  injection H as <-. exists (currentTime - tn). reflexivity.
Qed.

(** The four texts the check action can leave in [errorMessage]. *)
Lemma action_check_yields (W : world) (args : arguments) (currentRepo : string)
    (r : repo) :
  yields (fun messages =>
            snd messages = ""
            \/ snd messages = "Error checking repository " ++ currentRepo
            \/ snd messages = "Error getting snapshots for repository " ++ currentRepo
            \/ exists newDiff : Z,
                 snd messages = "Newest snapshot on " ++ currentRepo ++ " is "
                                  ++ str_timedelta newDiff ++ " old")
         (action_check W args currentRepo r).
Proof.
  intros s messages s' H. unfold action_check in H.
  apply bind_ok in H. destruct H as (checked & s1 & _ & H).
  apply bind_ok in H. destruct H as (errorMessage & s2 & Herr & H).
  unfold ret in H. injection H as <- _. cbn [snd].
  destruct (negb checked).
  { unfold ret in Herr. injection Herr as <- _. right. left. reflexivity. }
  destruct (age args).
  2:{ unfold ret in Herr. injection Herr as <- _. left. reflexivity. }
  unfold try_except_restic in Herr.
  match type of Herr with
  | match ?m s1 with _ => _ end = _ => destruct (m s1) as [[a | e] s3] eqn:Hm
  end.
  - injection Herr as -> _.
    apply bind_ok in Hm. destruct Hm as (snaps & s4 & _ & Hm).
    apply bind_ok in Hm. destruct Hm as (currentTime & s5 & _ & Hm).
    unfold lift in Hm. injection Hm as Hm _.
    right. right. right. exact (age_evaluation_text _ _ _ _ _ _ _ Hm).
  - destruct e; try discriminate Herr.
    unfold ret in Herr. injection Herr as <- _. right. right. left. reflexivity.
Qed.



(** * Further properties of the script *)

(** ** [end_script] *)

(** X1.  [end_script] exits with 2 exactly for the return code 2 and
    with 1 exactly for the return code 1; every other code, negative or
    beyond 2, is reported as a success with status 0.  The three lines of a
    CRITICAL are printed whatever [quiet] and [verbose] say, while [quiet]
    without [verbose] silences both other outcomes. *)
Theorem end_script_status_and_silence :
  forall (returnCode : Z) (stdOut stdErr successMsg errorMsg : string)
         (quiet verbose : bool),
    (fst (end_script returnCode stdOut stdErr successMsg errorMsg quiet verbose) = 2
     <-> returnCode = 2)
    /\ (fst (end_script returnCode stdOut stdErr successMsg errorMsg quiet verbose) = 1
        <-> returnCode = 1)
    /\ (fst (end_script returnCode stdOut stdErr successMsg errorMsg quiet verbose) = 0
        <-> returnCode <> 1 /\ returnCode <> 2)
    /\ (returnCode = 2 ->
        snd (end_script returnCode stdOut stdErr successMsg errorMsg quiet verbose)
        = ["CRITICAL - " ++ errorMsg; "Output: " ++ stdOut; "Error: " ++ stdErr])
    /\ (returnCode <> 2 -> quiet = true -> verbose = false ->
        snd (end_script returnCode stdOut stdErr successMsg errorMsg quiet verbose) = []).
Proof.
  intros returnCode stdOut stdErr successMsg errorMsg quiet verbose.
  unfold end_script.
  destruct (Z.eqb_spec returnCode 2) as [E2 | N2];
    [| destruct (Z.eqb_spec returnCode 1) as [E1 | N1]]; cbn [fst snd].
  - repeat split; intros; try reflexivity; try contradiction; lia.
  - repeat split; intros; subst; try reflexivity; try discriminate; try lia;
      try contradiction.
  - repeat split; intros; subst; try reflexivity; try contradiction; try lia.
Qed.

Lemma end_script_status_and_silence_witness :
  snd (end_script 2 "" "" "all fine. " "Error x. " true false)
  = ["CRITICAL - Error x. "; "Output: "; "Error: "]
  /\ snd (end_script 7 "" "" "all fine. " "Error x. " true false) = [].
Proof.
  destruct (end_script_status_and_silence 2 "" "" "all fine. " "Error x. " true false)
    as (_ & _ & _ & Hcrit & _).
  destruct (end_script_status_and_silence 7 "" "" "all fine. " "Error x. " true false)
    as (_ & _ & _ & _ & Hquiet).
  split.
  - apply Hcrit. reflexivity.
  - apply Hquiet; [discriminate | reflexivity | reflexivity].
Defined.

(** ** [get_repo_password] *)

(** X2.  A name the configuration does not have is a [KeyError] of that
    name, with and without a secret store and before the store is read;
    with a secret store, an entry whose key is an inline secret is a
    [TypeError] (the string is subscripted with ['path']). *)
Theorem get_repo_password_refuses :
  forall (repos : list (string * repo)) (currentRepo : string)
         (vault : option vault_client),
    (dict_get repos currentRepo = None ->
     get_repo_password repos currentRepo vault = Exc (KeyError currentRepo))
    /\ (forall (r : repo) (secret : string) (client : vault_client),
          dict_get repos currentRepo = Some r ->
          key r = KeyInline secret ->
          get_repo_password repos currentRepo (Some client) = Exc TypeError).
Proof.
  intros repos currentRepo vault. split.
  - intros H. unfold get_repo_password, subscript. rewrite H.
    destruct vault; reflexivity.
  - intros r secret client Hr Hkey.
    unfold get_repo_password, subscript. rewrite Hr. cbn [res_bind].
    rewrite Hkey. reflexivity.
Qed.

Lemma get_repo_password_refuses_witness :
  get_repo_password (repos Sample.cfg) "ghost" (Some Sample.secrets)
  = Exc (KeyError "ghost")
  /\ get_repo_password (repos Sample.cfg) "plain" (Some Sample.secrets) = Exc TypeError.
Proof.
  split.
  - exact (proj1 (get_repo_password_refuses (repos Sample.cfg) "ghost"
                    (Some Sample.secrets)) eq_refl).
  - exact (proj2 (get_repo_password_refuses (repos Sample.cfg) "plain"
                    (Some Sample.secrets))
                 Sample.plain "letmein" Sample.secrets eq_refl eq_refl).
Defined.

(** X3.  With a secret store, the record read at the entry's path and
    mount point decides: an object-storage location ([b2:]) gets the whole
    record, any other location gets the record's [password] field alone,
    and a record without that field is a [KeyError] of ['password']; a
    read that fails is the store's exception. *)
Theorem get_repo_password_from_vault :
  forall (repos : list (string * repo)) (currentRepo : string) (r : repo)
         (path mountpoint : string) (client : vault_client),
    dict_get repos currentRepo = Some r ->
    key r = KeyVault path mountpoint ->
    get_repo_password repos currentRepo (Some client)
    = match client path mountpoint with
      | None => Exc VaultError
      | Some data =>
          if String.eqb (slice0 3 (location r)) "b2:" then Ok (CredDict data)
          else match dict_get data "password" with
               | Some password => Ok (CredStr password)
               | None => Exc (KeyError "password")
               end
      end.
Proof.
  intros repos currentRepo r path mountpoint client Hr Hkey.
  unfold get_repo_password, subscript. rewrite Hr. cbn [res_bind]. rewrite Hkey.
  destruct (client path mountpoint) as [data |]; [| reflexivity].
  destruct (String.eqb (slice0 3 (location r)) "b2:"); [reflexivity |].
  destruct (dict_get data "password"); reflexivity.
Qed.

Lemma get_repo_password_from_vault_witness :
  get_repo_password (repos Sample.cfg) "nas" (Some Sample.secrets)
  = Ok (CredStr "battery staple")
  /\ get_repo_password (repos Sample.cfg) "offsite" (Some Sample.secrets)
     = Ok (CredDict [("keyID", "0012ab"); ("applicationKey", "K001xyz");
                     ("password", "correct horse")]).
Proof.
  split.
  - exact (get_repo_password_from_vault (repos Sample.cfg) "nas" Sample.nas
             "backup/nas" "kv" Sample.secrets eq_refl eq_refl).
  - exact (get_repo_password_from_vault (repos Sample.cfg) "offsite" Sample.offsite
             "backup/offsite" "kv" Sample.secrets eq_refl eq_refl).
Defined.

(** ** The age evaluation, when it returns *)

(** X4.  Whenever the age evaluation returns at all, it returns the text
    about the newest snapshot, with the age of that snapshot in it: the
    time read at line 263 minus the timestamp of the last snapshot of the
    first group, which is more than [min_age] days.  The text "Oldest
    snapshot on ..." of line 269 is never what the block leaves in
    [errorMessage], and no input makes the block end without an error
    text. *)
Theorem age_evaluation_returns_newest_only :
  forall (W : world) (currentRepo : string) (r : repo) (snaps : list restic.group)
         (currentTime : Z) (errorMessage message : string),
    age_evaluation W currentRepo r snaps currentTime errorMessage = Ok message ->
    exists (g : restic.group) (rest : list restic.group) (newest : restic.snapshot)
           (newestTime min_age_n : Z) (min_age_s : string),
      snaps = g :: rest
      /\ last_of (restic.snapshots_of g) = Some newest
      /\ strptime W (slice0 18 (restic.time newest)) = Some newestTime
      /\ min_age r = Some min_age_s
      /\ int W min_age_s = Some min_age_n
      /\ min_age_n * usec_per_day < currentTime - newestTime
      /\ message = "Newest snapshot on " ++ currentRepo ++ " is "
                     ++ str_timedelta (currentTime - newestTime) ++ " old".
Proof.
  intros W currentRepo r snaps currentTime errorMessage message H.
  unfold age_evaluation in H.
  destruct snaps as [| g rest]; [discriminate H |].
  change (nth_error (g :: rest) 0) with (Some g) in H. cbn [res_bind] in H.
  destruct (nth_error (restic.snapshots_of g) 0) as [o |]; [| discriminate H].
  cbn [res_bind] in H.
  destruct (last_of (restic.snapshots_of g)) as [n |] eqn:Hlast; [| discriminate H].
  cbn [res_bind] in H.
  destruct (strptime W (slice0 18 (restic.time o))) as [to |]; [| discriminate H].
  cbn [res_bind] in H.
  destruct (strptime W (slice0 18 (restic.time n))) as [tn |] eqn:Htn;
    [| discriminate H].
  cbn [res_bind] in H.
  destruct (max_age r) as [ma |]; [| discriminate H]. cbn [entry res_bind] in H.
  destruct (int W ma) as [a |]; [| discriminate H]. cbn [res_bind] in H.
  destruct (timedelta_days a) as [ta |]; [| discriminate H]. cbn [res_bind] in H.
  destruct (min_age r) as [mi |]; [| discriminate H]. cbn [entry res_bind] in H.
  destruct (int W mi) as [b |] eqn:Hb; [| discriminate H]. cbn [res_bind] in H.
  unfold timedelta_days in H.
  destruct (Z.abs b <=? 999999999); [| discriminate H]. cbn [res_bind] in H.
  destruct (b * usec_per_day <? currentTime - tn) eqn:Hlate; [| discriminate H].
  injection H as <-. exists g, rest, n, tn, b, mi.
  repeat (split; [first [reflexivity | assumption] |]).
  split; [apply Z.ltb_lt; exact Hlate | reflexivity].
Qed.

(** The snapshots of [Example.stale], the newest 10 days old against a
    [min_age] of 7. *)
Lemma age_evaluation_returns_newest_only_witness :
  age_evaluation (Example.world_of Example.never true Example.stale Example.noon)
                 "home" Example.home Example.stale Example.noon ""
  = Ok "Newest snapshot on home is 10 days, 0:00:00 old"
  /\ exists (g : restic.group) (rest : list restic.group) (newest : restic.snapshot)
            (newestTime min_age_n : Z) (min_age_s : string),
       Example.stale = g :: rest
       /\ last_of (restic.snapshots_of g) = Some newest
       /\ strptime (Example.world_of Example.never true Example.stale Example.noon)
                   (slice0 18 (restic.time newest)) = Some newestTime
       /\ min_age Example.home = Some min_age_s
       /\ int (Example.world_of Example.never true Example.stale Example.noon)
              min_age_s = Some min_age_n
       /\ min_age_n * usec_per_day < Example.noon - newestTime
       /\ "Newest snapshot on home is 10 days, 0:00:00 old"
          = "Newest snapshot on " ++ "home" ++ " is "
              ++ str_timedelta (Example.noon - newestTime) ++ " old".
Proof.
  assert (H : age_evaluation
                (Example.world_of Example.never true Example.stale Example.noon)
                "home" Example.home Example.stale Example.noon ""
              = Ok "Newest snapshot on home is 10 days, 0:00:00 old").
  { vm_compute. reflexivity. }
  split; [exact H |].
  exact (age_evaluation_returns_newest_only _ _ _ _ _ _ _ H).
Defined.

(** X5.  The oldest snapshot beyond [max_age] with the newest one within
    [min_age] does not yield the text about the oldest snapshot: the
    evaluation writes that text, then takes the branch of line 273 and
    raises the [NameError] of [result]. *)
Theorem old_but_recently_saved_raises :
  forall (W : world) (currentRepo : string) (r : repo)
         (g : restic.group) (rest : list restic.group)
         (oldest newest : restic.snapshot)
         (oldestTime newestTime currentTime : Z)
         (max_age_s min_age_s : string) (max_age_n min_age_n : Z)
         (errorMessage : string),
    nth_error (restic.snapshots_of g) 0 = Some oldest ->
    last_of (restic.snapshots_of g) = Some newest ->
    strptime W (slice0 18 (restic.time oldest)) = Some oldestTime ->
    strptime W (slice0 18 (restic.time newest)) = Some newestTime ->
    max_age r = Some max_age_s ->
    int W max_age_s = Some max_age_n ->
    Z.abs max_age_n <= 999999999 ->
    min_age r = Some min_age_s ->
    int W min_age_s = Some min_age_n ->
    Z.abs min_age_n <= 999999999 ->
    max_age_n * usec_per_day < currentTime - oldestTime ->
    currentTime - newestTime <= min_age_n * usec_per_day ->
    age_evaluation W currentRepo r (g :: rest) currentTime errorMessage
    = Exc (NameError "result").
Proof.
  intros W currentRepo r g rest oldest newest oldestTime newestTime currentTime
         max_age_s min_age_s max_age_n min_age_n errorMessage
         Hold Hnew Hto Htn Hmax Himax Hbmax Hmin Himin Hbmin Hstale Hrecent.
  unfold age_evaluation. simpl nth_error at 1. cbn [res_bind].
  rewrite Hold, Hnew. cbn [res_bind].
  rewrite Hto, Htn. cbn [res_bind].
  rewrite Hmax, Hmin. cbn [entry res_bind].
  rewrite Himax, Himin. cbn [res_bind].
  unfold timedelta_days.
  apply Z.leb_le in Hbmax, Hbmin. rewrite Hbmax, Hbmin. cbn [res_bind].
  apply Z.ltb_ge in Hrecent. rewrite Hrecent. reflexivity.
Qed.

(** The oldest snapshot 40 days old against 30, the newest 1 day old
    against 7. *)
Lemma old_but_recently_saved_raises_witness :
  age_evaluation Example.calm "home" Example.home
                 (Sample.group_at ["2021-02-01T12:00:00.000000000+00:00";
                                   "2021-03-12T12:00:00.000000000+00:00"] :: [])
                 Example.noon ""
  = Exc (NameError "result").
Proof.
  exact (old_but_recently_saved_raises
           Example.calm "home" Example.home
           (Sample.group_at ["2021-02-01T12:00:00.000000000+00:00";
                             "2021-03-12T12:00:00.000000000+00:00"])
           []
           (Example.snap "2021-02-01T12:00:00.000000000+00:00")
           (Example.snap "2021-03-12T12:00:00.000000000+00:00")
           1612180800000000 1615550400000000 Example.noon
           "30" "7" 30 7 ""
           eq_refl eq_refl eq_refl eq_refl eq_refl eq_refl
           ltac:(vm_compute; discriminate)
           eq_refl eq_refl
           ltac:(vm_compute; discriminate)
           eq_refl
           ltac:(vm_compute; discriminate)).
Defined.

(** X6.  An empty snapshot list and a first group without snapshots both
    raise [IndexError], before any timestamp or threshold is looked at:
    whatever the repository entry, the clock and the conversions. *)
Theorem age_evaluation_needs_a_snapshot :
  forall (W : world) (currentRepo : string) (r : repo) (currentTime : Z)
         (errorMessage : string),
    age_evaluation W currentRepo r [] currentTime errorMessage = Exc IndexError
    /\ (forall (h : string) (rest : list restic.group),
          age_evaluation W currentRepo r
                         ({| restic.host := h; restic.snapshots_of := [] |} :: rest)
                         currentTime errorMessage
          = Exc IndexError).
Proof. intros. split; [reflexivity | intros; reflexivity]. Qed.

(** X7.  Of each of the two timestamps the evaluation reads the first 18
    characters only (lines 260-261), which end with the tens digit of the
    seconds: timestamps that agree on these characters give the same
    result, so the units of the seconds, the fraction and the time zone
    never count. *)
Theorem age_reads_eighteen_characters :
  forall (W : world) (currentRepo : string) (r : repo)
         (g g' : restic.group) (rest rest' : list restic.group)
         (oldest newest oldest' newest' : restic.snapshot)
         (currentTime : Z) (errorMessage : string),
    nth_error (restic.snapshots_of g) 0 = Some oldest ->
    last_of (restic.snapshots_of g) = Some newest ->
    nth_error (restic.snapshots_of g') 0 = Some oldest' ->
    last_of (restic.snapshots_of g') = Some newest' ->
    slice0 18 (restic.time oldest) = slice0 18 (restic.time oldest') ->
    slice0 18 (restic.time newest) = slice0 18 (restic.time newest') ->
    age_evaluation W currentRepo r (g :: rest) currentTime errorMessage
    = age_evaluation W currentRepo r (g' :: rest') currentTime errorMessage.
Proof.
  intros W currentRepo r g g' rest rest' oldest newest oldest' newest'
         currentTime errorMessage Ho Hn Ho' Hn' Eo En.
  unfold age_evaluation.
  change (nth_error (g :: rest) 0) with (Some g).
  change (nth_error (g' :: rest') 0) with (Some g').
  cbn [res_bind]. rewrite Ho, Hn, Ho', Hn'. cbn [res_bind].
  rewrite Eo, En. reflexivity.
Qed.

(** A newest snapshot taken at 12:00:00 UTC and one taken nine seconds
    later in another zone are one and the same to the evaluation. *)
Lemma age_reads_eighteen_characters_witness :
  age_evaluation Example.calm "home" Example.home
                 (Sample.group_at ["2021-02-01T12:00:00.000000000+00:00";
                                   "2021-03-03T12:00:00.000000000+00:00"] :: [])
                 Example.noon ""
  = age_evaluation Example.calm "home" Example.home
                   (Sample.group_at ["2021-02-01T12:00:03.5+00:00";
                                     "2021-03-03T12:00:09.999999999-08:00"] :: [])
                   Example.noon "".
Proof.
  exact (age_reads_eighteen_characters
           Example.calm "home" Example.home
           (Sample.group_at ["2021-02-01T12:00:00.000000000+00:00";
                             "2021-03-03T12:00:00.000000000+00:00"])
           (Sample.group_at ["2021-02-01T12:00:03.5+00:00";
                             "2021-03-03T12:00:09.999999999-08:00"])
           [] []
           (Example.snap "2021-02-01T12:00:00.000000000+00:00")
           (Example.snap "2021-03-03T12:00:00.000000000+00:00")
           (Example.snap "2021-02-01T12:00:03.5+00:00")
           (Example.snap "2021-03-03T12:00:09.999999999-08:00")
           Example.noon ""
           eq_refl eq_refl eq_refl eq_refl eq_refl eq_refl).
Defined.

(** ** The check action *)

(** X8.  The check action asks for the snapshot list only when the check
    succeeded and [--age] was given.  When the check call returns and
    either reports a damaged repository or [--age] is absent, the check is
    the only engine call of the action; the success text says "healthy"
    in both cases, and the error text is "Error checking repository ..."
    for the damaged repository and empty otherwise. *)
Theorem check_alone :
  forall (W : world) (args : arguments) (currentRepo : string) (r : repo) (s : state),
    engine_ok W (trace s ++ [event_of (restic.check (full args)) s]) = true ->
    check_value W (trace s ++ [event_of (restic.check (full args)) s]) = false
    \/ age args = false ->
    action_check W args currentRepo r s
    = (Ok ("Repository " ++ currentRepo ++ " is healthy",
           if check_value W (trace s ++ [event_of (restic.check (full args)) s])
           then "" else "Error checking repository " ++ currentRepo),
       with_trace (trace s ++ [event_of (restic.check (full args)) s]) s).
Proof.
  intros W args currentRepo r s Hok Hwhy.
  unfold action_check. cbv zeta.
  replace (if full args then true else false) with (full args)
    by (destruct (full args); reflexivity).
  rewrite (bind_step _ _ _ _ _ (restic_check_ok _ _ _ Hok)).
  destruct (check_value W _) eqn:Hv; cbn [negb].
  - destruct Hwhy as [Hwhy | Hwhy]; [discriminate Hwhy |]. rewrite Hwhy.
    reflexivity.
  - reflexivity.
Qed.

Lemma check_alone_witness :
  action_check (Example.world_of Example.never false Example.stale Example.noon)
               (Example.args_of act_check "home" true) "home" Example.home
               (initial_state Example.calm)
  = (Ok ("Repository home is healthy", "Error checking repository home"),
     with_trace [event_of (restic.check false) (initial_state Example.calm)]
                (initial_state Example.calm)).
Proof.
  exact (check_alone
           (Example.world_of Example.never false Example.stale Example.noon)
           (Example.args_of act_check "home" true) "home" Example.home
           (initial_state Example.calm) eq_refl (or_introl eq_refl)).
Defined.

(** X9.  With [--age], when the check succeeded and the engine then
    fails to list the snapshots, the restic error is caught: the action
    returns with the error text "Error getting snapshots for repository
    ...", after exactly the two calls check and snapshots. *)
Theorem snapshots_failure_is_caught :
  forall (W : world) (args : arguments) (currentRepo : string) (r : repo) (s : state),
    age args = true ->
    engine_ok W (trace s ++ [event_of (restic.check (full args)) s]) = true ->
    check_value W (trace s ++ [event_of (restic.check (full args)) s]) = true ->
    let s1 := with_trace (trace s ++ [event_of (restic.check (full args)) s]) s in
    engine_ok W (trace s1 ++ [event_of (restic.snapshots "host") s1]) = false ->
    action_check W args currentRepo r s
    = (Ok ("Repository " ++ currentRepo ++ " is healthy",
           "Error getting snapshots for repository " ++ currentRepo),
       with_trace (trace s1 ++ [event_of (restic.snapshots "host") s1]) s1).
Proof.
  intros W args currentRepo r s Hage Hok Hv s1 Hfail.
  unfold action_check. cbv zeta.
  replace (if full args then true else false) with (full args)
    by (destruct (full args); reflexivity).
  rewrite (bind_step _ _ _ _ _ (restic_check_ok _ _ _ Hok)).
  rewrite Hv, Hage. cbn [negb]. fold s1.
  unfold bind at 1. unfold try_except_restic.
  rewrite (bind_raise _ _ _ _ _ (restic_snapshots_fails _ _ _ Hfail)).
  reflexivity.
Qed.

Lemma snapshots_failure_is_caught_witness :
  action_check (Example.world_of Sample.is_snapshots true [] Example.noon)
               (Example.args_of act_check "home" true) "home" Example.home
               (initial_state Example.calm)
  = (Ok ("Repository home is healthy", "Error getting snapshots for repository home"),
     with_trace
       (trace (with_trace [event_of (restic.check false) (initial_state Example.calm)]
                          (initial_state Example.calm))
        ++ [event_of (restic.snapshots "host")
              (with_trace [event_of (restic.check false) (initial_state Example.calm)]
                          (initial_state Example.calm))])
       (with_trace [event_of (restic.check false) (initial_state Example.calm)]
                   (initial_state Example.calm))).
Proof.
  exact (snapshots_failure_is_caught
           (Example.world_of Sample.is_snapshots true [] Example.noon)
           (Example.args_of act_check "home" true) "home" Example.home
           (initial_state Example.calm) eq_refl eq_refl eq_refl eq_refl).
Defined.

(** ** The actions on a standard repository *)

(** X10.  The create action does not stop at the initialisation.  On a
    standard repository, when the engine accepts both calls, it calls
    init and then backup over the configured includes, and the texts it
    leaves are those of a new snapshot ("Snapshot successfully created
    ..."), not those of line 226: the test of line 229 is an [if], so
    create runs the last branch of the chain as well. *)
Theorem create_also_backs_up :
  forall (W : world) (args : arguments) (cfg : config) (currentRepo : string)
         (r : repo) (paths : list string) (s : state),
    action args = act_create ->
    duplicate r = None ->
    includes r = Some paths ->
    let s0 := with_restic (Some (resticLocation cfg)) (Some (location r)) s in
    let s1 := with_trace (trace s0 ++ [event_of (restic.init None false) s0]) s0 in
    let backup := restic.backup paths
                    ("lost+found" :: match excludes r with
                                     | Some l => l
                                     | None => []
                                     end) in
    engine_ok W (trace s0 ++ [event_of (restic.init None false) s0]) = true ->
    engine_ok W (trace s1 ++ [event_of backup s1]) = true ->
    actions W args cfg currentRepo r s
    = (Ok ("Snapshot successfully created on repository " ++ currentRepo,
           "Error creating new snapshot on repository " ++ location r),
       with_trace (trace s1 ++ [event_of backup s1]) s1).
Proof.
  intros W args cfg currentRepo r paths s Hact Hdup Hinc s0 s1 backup Hinit Hbackup.
  unfold actions. rewrite Hact. rewrite bind_modify. fold s0.
  unfold action_create, action_run. rewrite Hdup, Hinc.
  rewrite !bind_assoc, bind_ret. cbn [fst snd].
  rewrite !bind_assoc.
  rewrite (bind_step _ _ _ _ _ (invoke_ok _ _ _ Hinit)). fold s1.
  rewrite !bind_ret. rewrite bind_assoc, bind_lift. cbn [entry app].
  rewrite (bind_step _ _ _ _ _ (invoke_ok _ _ _ Hbackup)).
  reflexivity.
Qed.

Lemma create_also_backs_up_witness :
  calls (snd (actions Example.calm (Example.args_of act_create "home" false)
                      Example.cfg "home" Example.home (initial_state Example.calm)))
  = [restic.init None false; restic.backup ["/home"] ["lost+found"]]
  /\ fst (actions Example.calm (Example.args_of act_create "home" false)
                  Example.cfg "home" Example.home (initial_state Example.calm))
     = Ok ("Snapshot successfully created on repository home",
           "Error creating new snapshot on repository /srv/restic/home").
Proof.
  rewrite (create_also_backs_up
             Example.calm (Example.args_of act_create "home" false)
             Example.cfg "home" Example.home ["/home"] (initial_state Example.calm)
             eq_refl eq_refl eq_refl eq_refl eq_refl).
  split; reflexivity.
Defined.

(** X11.  The run action on a standard repository makes one call, a
    backup of the configured includes whose exclusion list starts with
    "lost+found" and goes on with the configured excludes in their order
    (none when the entry has no [excludes]); the call runs against the
    binary and the location of the configuration. *)
Theorem run_backs_up_with_default_exclusion :
  forall (W : world) (args : arguments) (cfg : config) (currentRepo : string)
         (r : repo) (paths : list string) (s : state),
    action args = act_run ->
    duplicate r = None ->
    includes r = Some paths ->
    let s0 := with_restic (Some (resticLocation cfg)) (Some (location r)) s in
    let backup := restic.backup paths
                    ("lost+found" :: match excludes r with
                                     | Some l => l
                                     | None => []
                                     end) in
    actions W args cfg currentRepo r s
    = (if engine_ok W (trace s0 ++ [event_of backup s0])
       then Ok ("Snapshot successfully created on repository " ++ currentRepo,
                "Error creating new snapshot on repository " ++ location r)
       else Exc ResticError,
       with_trace (trace s0 ++ [event_of backup s0]) s0).
Proof.
  intros W args cfg currentRepo r paths s Hact Hdup Hinc s0 backup.
  unfold actions. rewrite Hact. rewrite bind_modify. fold s0.
  rewrite bind_ret. unfold action_run. rewrite Hdup, Hinc.
  rewrite bind_assoc, bind_lift. cbn [entry app]. fold backup.
  destruct (engine_ok W (trace s0 ++ [event_of backup s0])) eqn:Hok.
  - rewrite (bind_step _ _ _ _ _ (invoke_ok _ _ _ Hok)). reflexivity.
  - apply bind_raise. apply invoke_fails. exact Hok.
Qed.

Lemma run_backs_up_with_default_exclusion_witness :
  calls (snd (actions Sample.calm (Sample.args_of act_run "offsite" false)
                      Sample.cfg "offsite" Sample.offsite (initial_state Sample.calm)))
  = [restic.backup ["/etc"; "/home"] ["lost+found"; "*.tmp"; ".cache"]]
  /\ repository (snd (actions Sample.calm (Sample.args_of act_run "offsite" false)
                              Sample.cfg "offsite" Sample.offsite
                              (initial_state Sample.calm)))
     = Some "b2:bucket:offsite".
Proof.
  rewrite (run_backs_up_with_default_exclusion
             Sample.calm (Sample.args_of act_run "offsite" false)
             Sample.cfg "offsite" Sample.offsite ["/etc"; "/home"]
             (initial_state Sample.calm) eq_refl eq_refl eq_refl).
  split; reflexivity.
Defined.

(** X12.  The prune action makes one call: forget, grouped by host, with
    pruning on, keeping what is within the entry's [max_age] followed by
    the letter d. *)
Theorem prune_keeps_within_max_age_days :
  forall (W : world) (args : arguments) (cfg : config) (currentRepo : string)
         (r : repo) (days : string) (s : state),
    action args = act_prune ->
    max_age r = Some days ->
    let s0 := with_restic (Some (resticLocation cfg)) (Some (location r)) s in
    let forget := restic.forget "host" (days ++ "d") true in
    actions W args cfg currentRepo r s
    = (if engine_ok W (trace s0 ++ [event_of forget s0])
       then Ok ("Repository " ++ currentRepo ++ " clean up successful",
                "Error cleaning up repository " ++ currentRepo)
       else Exc ResticError,
       with_trace (trace s0 ++ [event_of forget s0]) s0).
Proof.
  intros W args cfg currentRepo r days s Hact Hmax s0 forget.
  unfold actions. rewrite Hact. rewrite bind_modify. fold s0.
  rewrite bind_ret. unfold action_prune. rewrite Hmax.
  rewrite bind_lift. cbn [entry]. fold forget.
  destruct (engine_ok W (trace s0 ++ [event_of forget s0])) eqn:Hok.
  - rewrite (bind_step _ _ _ _ _ (invoke_ok _ _ _ Hok)). reflexivity.
  - apply bind_raise. apply invoke_fails. exact Hok.
Qed.

Lemma prune_keeps_within_max_age_days_witness :
  calls (snd (actions Example.calm (Example.args_of act_prune "home" false)
                      Example.cfg "home" Example.home (initial_state Example.calm)))
  = [restic.forget "host" "30d" true].
Proof.
  rewrite (prune_keeps_within_max_age_days
             Example.calm (Example.args_of act_prune "home" false)
             Example.cfg "home" Example.home "30" (initial_state Example.calm)
             eq_refl eq_refl).
  reflexivity.
Defined.

(** X13.  A key the action needs and the entry lacks is a [KeyError]
    raised before the engine is called: [includes] for the run action on
    a standard repository, [max_age] for the prune action.  Only the
    attributes of the binding have been set by then. *)
Theorem missing_key_fails_before_the_engine :
  forall (W : world) (args : arguments) (cfg : config) (currentRepo : string)
         (r : repo) (s : state),
    (action args = act_run -> duplicate r = None -> includes r = None ->
     actions W args cfg currentRepo r s
     = (Exc (KeyError "includes"),
        with_restic (Some (resticLocation cfg)) (Some (location r)) s))
    /\ (action args = act_prune -> max_age r = None ->
        actions W args cfg currentRepo r s
        = (Exc (KeyError "max_age"),
           with_restic (Some (resticLocation cfg)) (Some (location r)) s)).
Proof.
  intros W args cfg currentRepo r s. split.
  - intros Hact Hdup Hinc. unfold actions. rewrite Hact, bind_modify, bind_ret.
    unfold action_run. rewrite Hdup, Hinc. rewrite bind_assoc, bind_lift.
    reflexivity.
  - intros Hact Hmax. unfold actions. rewrite Hact, bind_modify, bind_ret.
    unfold action_prune. rewrite Hmax. rewrite bind_lift. reflexivity.
Qed.

Lemma missing_key_fails_before_the_engine_witness :
  actions Sample.calm (Sample.args_of act_prune "plain" false) Sample.cfg
          "plain" Sample.plain (initial_state Sample.calm)
  = (Exc (KeyError "max_age"),
     with_restic (Some (resticLocation Sample.cfg)) (Some (location Sample.plain))
                 (initial_state Sample.calm))
  /\ actions Sample.calm (Sample.args_of act_run "plain" false) Sample.cfg
             "plain" Sample.plain (initial_state Sample.calm)
     = (Exc (KeyError "includes"),
        with_restic (Some (resticLocation Sample.cfg)) (Some (location Sample.plain))
                    (initial_state Sample.calm)).
Proof.
  split.
  - exact (proj2 (missing_key_fails_before_the_engine
                    Sample.calm (Sample.args_of act_prune "plain" false) Sample.cfg
                    "plain" Sample.plain (initial_state Sample.calm))
                 eq_refl eq_refl).
  - exact (proj1 (missing_key_fails_before_the_engine
                    Sample.calm (Sample.args_of act_run "plain" false) Sample.cfg
                    "plain" Sample.plain (initial_state Sample.calm))
                 eq_refl eq_refl eq_refl).
Defined.

(** ** Create on a duplicate *)

(** X25.  Lines 214-223 on a duplicate: the repository is initialised
    with the location of its source as second repository and with the
    request to copy the source's chunker parameters.  This is the one
    engine call of the block, and its failure the block's failure. *)
Theorem create_initialises_a_duplicate_from_its_source :
  forall (W : world) (cfg : config) (currentRepo : string) (r : repo)
         (duplicateSource : string) (src : repo) (s : state),
    duplicate r = Some duplicateSource ->
    dict_get (repos cfg) duplicateSource = Some src ->
    let init := restic.init (Some (location src)) true in
    action_create W cfg currentRepo r s
    = (if engine_ok W (trace s ++ [event_of init s])
       then Ok ("Repository " ++ currentRepo ++ " successfully created at location "
                  ++ location r,
                "Error creating repository " ++ location r)
       else Exc ResticError,
       with_trace (trace s ++ [event_of init s]) s).
Proof.
  intros W cfg currentRepo r duplicateSource src s Hdup Hsrc init.
  unfold action_create. rewrite Hdup. unfold subscript. rewrite Hsrc.
  rewrite bind_assoc, bind_lift, bind_ret. cbn [fst snd]. fold init.
  destruct (engine_ok W (trace s ++ [event_of init s])) eqn:Hok.
  - rewrite (bind_step _ _ _ _ _ (invoke_ok _ _ _ Hok)). reflexivity.
  - apply bind_raise. apply invoke_fails. exact Hok.
Qed.

Lemma create_initialises_a_duplicate_from_its_source_witness :
  calls (snd (action_create Example.calm Example.cfg "mirror" Example.mirror
                            (initial_state Example.calm)))
  = [restic.init (Some "/srv/restic/home") true].
Proof.
  rewrite (create_initialises_a_duplicate_from_its_source
             Example.calm Example.cfg "mirror" Example.mirror "home" Example.home
             (initial_state Example.calm) eq_refl eq_refl).
  reflexivity.
Defined.

(** ** The body of the loop and the loop *)

(** X14.  No pass through the body of the loop gets beyond line 192.
    When [get_repo_password] returns, the first [os.environ.set] of the
    pass raises [AttributeError]; when it raises, its exception ends the
    pass.  Either way the state is what it was: no variable of the
    environment is set, no engine call is made, no message is
    accumulated, the status is untouched and the unlock is not reached.
    The loop over a list therefore ends in its first pass, and over any
    list it leaves the state as it found it. *)
Theorem every_pass_stops_at_the_credentials :
  forall (W : world) (args : arguments) (cfg : config) (vault : option vault_client)
         (currentRepo : string) (s : state),
    (forall c : credential,
        get_repo_password (repos cfg) currentRepo vault = Ok c ->
        process W args cfg vault currentRepo s = (Exc AttributeError, s))
    /\ (forall e : exn,
           get_repo_password (repos cfg) currentRepo vault = Exc e ->
           process W args cfg vault currentRepo s = (Exc e, s))
    /\ (forall rest : list string,
           loop W args cfg vault (currentRepo :: rest) s
           = process W args cfg vault currentRepo s)
    /\ (forall reposToProcess : list string,
           snd (loop W args cfg vault reposToProcess s) = s).
Proof.
  intros W args cfg vault currentRepo s.
  pose proof (process_raises W args cfg vault currentRepo s) as Hp.
  unfold credentials_exception in Hp.
  split; [| split; [| split]].
  - intros c Hc. rewrite Hc in Hp. exact Hp.
  - intros e He. rewrite He in Hp. exact Hp.
  - intros rest. rewrite loop_raises, process_raises. reflexivity.
  - intros reposToProcess. apply loop_state.
Qed.

(** The pass for [home] of [run] on all repositories: the inline secret
    is returned and line 192 raises. *)
Lemma every_pass_stops_at_the_credentials_witness :
  get_repo_password (repos Example.cfg) "home" None = Ok (CredStr "hunter2")
  /\ process Example.calm Example.run_all Example.cfg None "home"
             (initial_state Example.calm)
     = (Exc AttributeError, initial_state Example.calm).
Proof.
  split; [reflexivity |].
  exact (proj1 (every_pass_stops_at_the_credentials
                  Example.calm Example.run_all Example.cfg None "home"
                  (initial_state Example.calm))
               (CredStr "hunter2") eq_refl).
Defined.

(** ** The accumulated success message *)

(** X20.  One pass through lines 212-314, from any state: when the action
    returns, the success message has grown by the fixed success text of
    the action with the repository's name, followed by [". "].  The text
    does not depend on what the action found: after a check that reported
    damage it still reads "Repository <name> is healthy". *)
Theorem success_fragments_accumulate :
  forall (W : world) (args : arguments) (cfg : config) (currentRepo : string)
         (r : repo) (s s1 : state),
    perform W args cfg currentRepo r s = (Ok tt, s1) ->
    successMessageAccumulated s1
    = successMessageAccumulated s ++ (success_text (action args) currentRepo ++ ". ").
Proof.
  intros W args cfg currentRepo r s s1 H. unfold perform in H.
  apply bind_ok in H. destruct H as (messages & s0 & Hact & Hacc).
  pose proof (actions_keep_messages W args cfg currentRepo r s) as [Hkeep _].
  rewrite Hact in Hkeep. cbn [snd] in Hkeep.
  unfold accumulate, modify in Hacc. injection Hacc as <-.
  cbn [successMessageAccumulated with_messages]. rewrite Hkeep.
  rewrite (actions_yield_success_text W args cfg currentRepo r _ _ _ Hact).
  reflexivity.
Qed.

(** [check home] on the damaged repository. *)
Lemma success_fragments_accumulate_witness :
  perform Example.damaged Example.check_home Example.cfg "home" Example.home
          (initial_state Example.damaged)
  = (Ok tt,
     snd (perform Example.damaged Example.check_home Example.cfg "home" Example.home
                  (initial_state Example.damaged)))
  /\ successMessageAccumulated
       (snd (perform Example.damaged Example.check_home Example.cfg "home"
                     Example.home (initial_state Example.damaged)))
     = successMessageAccumulated (initial_state Example.damaged)
         ++ (success_text (action Example.check_home) "home" ++ ". ").
Proof.
  assert (H : perform Example.damaged Example.check_home Example.cfg "home"
                      Example.home (initial_state Example.damaged)
              = (Ok tt,
                 snd (perform Example.damaged Example.check_home Example.cfg "home"
                              Example.home (initial_state Example.damaged)))).
  { vm_compute. reflexivity. }
  split; [exact H |].
  exact (success_fragments_accumulate Example.damaged Example.check_home Example.cfg
                                      "home" Example.home
                                      (initial_state Example.damaged) _ H).
Defined.

(** ** The whole run *)

(** X21.  From line 143 on, a run exits with status 0 only when no
    repository is selected, which is the case of [ALL_REPOS] over a
    configuration without repositories.  It then prints, unless quiet,
    the line "OK - " with an empty message; verbose adds the separator
    line and an empty line. *)
Theorem ok_means_nothing_was_selected :
  forall (W : world) (args : arguments) (cfg : config) (printed : list string)
         (s : state),
    main W args cfg = Exited 0 printed s ->
    selected args cfg = []
    /\ printed
       = List.app (if quiet args then [] else ["OK - "])
           (if verbose args
            then ["------------------------------------------------------------------------------";
                  ""]
            else []).
Proof.
  intros W args cfg printed s H.
  destruct (unknown_repository args cfg) eqn:Hknown.
  - rewrite (main_unknown W args cfg Hknown) in H. discriminate H.
  - destruct (main_known W args cfg Hknown)
      as [(e & s1 & Hmain & _) | (Hsel & s1 & Hmain & _)];
      rewrite Hmain in H; [discriminate H |].
    injection H as <- _. split; [exact Hsel | reflexivity].
Qed.

(** [list] on all repositories of a configuration that has none. *)
Lemma ok_means_nothing_was_selected_witness :
  main Example.calm Example.list_all Example.cfg_empty
  = Exited 0 ["OK - "] (initial_state Example.calm)
  /\ selected Example.list_all Example.cfg_empty = []
  /\ ["OK - "]
     = List.app (if quiet Example.list_all then [] else ["OK - "])
         (if verbose Example.list_all
          then ["------------------------------------------------------------------------------";
                ""]
          else []).
Proof.
  assert (H : main Example.calm Example.list_all Example.cfg_empty
              = Exited 0 ["OK - "] (initial_state Example.calm)).
  { vm_compute. reflexivity. }
  split; [exact H |].
  exact (ok_means_nothing_was_selected _ _ _ _ _ H).
Defined.

(** X22.  From line 143 on, a run that passes the test of line 144 and
    selects at least one repository ends on an exception nobody catches:
    the process status is 1, neither an OK nor a WARNING nor a CRITICAL
    line is printed, and no engine call other than the self-update has
    been made. *)
Theorem any_repository_ends_the_run_on_an_exception :
  forall (W : world) (args : arguments) (cfg : config),
    unknown_repository args cfg = false ->
    selected args cfg <> [] ->
    uncaught (main W args cfg) <> None
    /\ exit_status (main W args cfg) = 1
    /\ printed_lines (main W args cfg) = []
    /\ (forall c : restic.call,
           In c (calls (final_state (main W args cfg))) -> c = restic.self_update).
Proof.
  intros W args cfg Hknown Hsel.
  destruct (main_known W args cfg Hknown)
    as [(e & s1 & Hmain & Hcalls) | (Hnil & _)]; [| contradiction].
  rewrite Hmain. cbn [uncaught exit_status printed_lines final_state].
  repeat split; [discriminate | exact Hcalls].
Qed.

(** [run] on the two repositories of [Example.cfg], with an engine on
    which nothing fails. *)
Lemma any_repository_ends_the_run_on_an_exception_witness :
  uncaught (main Example.calm Example.run_all Example.cfg) <> None
  /\ exit_status (main Example.calm Example.run_all Example.cfg) = 1
  /\ printed_lines (main Example.calm Example.run_all Example.cfg) = []
  /\ (forall c : restic.call,
         In c (calls (final_state (main Example.calm Example.run_all Example.cfg))) ->
         c = restic.self_update).
Proof.
  apply (any_repository_ends_the_run_on_an_exception
           Example.calm Example.run_all Example.cfg).
  - vm_compute. reflexivity.
  - vm_compute. discriminate.
Defined.

(** X23.  The script, from line 140 on, exits with status 2 in three
    cases and in no other: the command line is refused, [parse_config]
    cannot return the configuration (the file is absent, cannot be read,
    or lacks one of the two keys it must have), or the repository named
    is neither in the configuration nor [ALL_REPOS].  No engine call has
    been made then, the self-update included.  Nothing from the
    self-update on ends the run with status 2. *)
Theorem critical_only_before_the_engine :
  forall (W : world) (cli : command_line) (files : string -> config_file),
    (exit_status (script W cli files) = 2
     <-> (cli = UsageError
          \/ exists args : arguments,
               cli = Parsed args
               /\ match parse_config (configFile args) (files (configFile args)) with
                  | inr _ => True
                  | inl cfg => unknown_repository args cfg = true
                  end))
    /\ (exit_status (script W cli files) = 2 ->
        uncaught (script W cli files) = None
        /\ calls (final_state (script W cli files)) = []).
Proof.
  intros W cli files.
  destruct cli as [args | help |]; cbn [script].
  - destruct (parse_config (configFile args) (files (configFile args)))
      as [cfg | printed] eqn:Hparse.
    + destruct (unknown_repository args cfg) eqn:Hknown.
      * rewrite (main_unknown W args cfg Hknown).
        cbn [exit_status uncaught final_state]. split.
        -- split; [| reflexivity]. intros _. right. exists args.
           split; [reflexivity |]. rewrite Hparse. exact Hknown.
        -- intros _. split; reflexivity.
      * assert (Hstatus : exit_status (main W args cfg) <> 2).
        { destruct (main_known W args cfg Hknown)
            as [(e & s1 & Hmain & _) | (_ & s1 & Hmain & _)];
            rewrite Hmain; cbn [exit_status]; discriminate. }
        split; [split |].
        -- intros H. contradiction.
        -- intros [H | (args' & Hcli & H)]; [discriminate H |].
           injection Hcli as <-. rewrite Hparse, Hknown in H. discriminate H.
        -- intros H. contradiction.
    + cbn [exit_status uncaught final_state]. split.
      * split; [| reflexivity]. intros _. right. exists args.
        split; [reflexivity |]. rewrite Hparse. exact I.
      * intros _. split; reflexivity.
  - cbn [exit_status]. split; [split |].
    + intros H. discriminate H.
    + intros [H | (args' & Hcli & _)]; discriminate.
    + intros H. discriminate H.
  - cbn [exit_status uncaught final_state]. split.
    + split; [| reflexivity]. intros _. left. reflexivity.
    + intros _. split; reflexivity.
Qed.

(** [list ghost] against a file [backup.yml] that has only [home] and
    [mirror]: status 2, from line 146. *)
Lemma critical_only_before_the_engine_witness :
  exit_status (script Example.calm (Parsed (Example.args_of act_list "ghost" false))
                      (Example.only_backup_yml
                         {| restic_binary_location := Some "/usr/bin/restic";
                            repos_value := Some (repos Example.cfg);
                            vault_value := None |})) = 2
  /\ uncaught (script Example.calm (Parsed (Example.args_of act_list "ghost" false))
                      (Example.only_backup_yml
                         {| restic_binary_location := Some "/usr/bin/restic";
                            repos_value := Some (repos Example.cfg);
                            vault_value := None |})) = None
  /\ calls (final_state
              (script Example.calm (Parsed (Example.args_of act_list "ghost" false))
                      (Example.only_backup_yml
                         {| restic_binary_location := Some "/usr/bin/restic";
                            repos_value := Some (repos Example.cfg);
                            vault_value := None |}))) = [].
Proof.
  assert (H : exit_status
                (script Example.calm (Parsed (Example.args_of act_list "ghost" false))
                        (Example.only_backup_yml
                           {| restic_binary_location := Some "/usr/bin/restic";
                              repos_value := Some (repos Example.cfg);
                              vault_value := None |})) = 2).
  { vm_compute. reflexivity. }
  split; [exact H |].
  exact (proj2 (critical_only_before_the_engine _ _ _) H).
Defined.

(** X24.  The script never gets to report a warning: the process status
    is 1 exactly when the run ended on an exception nobody caught, and
    then nothing was printed.  The exit of line 126 is never taken. *)
Theorem status_one_is_always_a_crash :
  forall (W : world) (cli : command_line) (files : string -> config_file),
    (exit_status (script W cli files) = 1 <-> uncaught (script W cli files) <> None)
    /\ (forall (printed : list string) (s : state),
           script W cli files <> Exited 1 printed s).
Proof.
  intros W cli files.
  assert (H : (exists e s, script W cli files = Crashed e s)
              \/ (exists printed s, script W cli files = Exited 0 printed s)
              \/ (exists printed s, script W cli files = Exited 2 printed s)).
  { destruct cli as [args | help |]; cbn [script].
    - destruct (parse_config (configFile args) (files (configFile args)))
        as [cfg | printed].
      + destruct (unknown_repository args cfg) eqn:Hknown.
        * rewrite (main_unknown W args cfg Hknown). right. right. eauto.
        * destruct (main_known W args cfg Hknown)
            as [(e & s1 & Hmain & _) | (_ & s1 & Hmain & _)]; rewrite Hmain.
          -- left. eauto.
          -- right. left. eauto.
      + right. right. eauto.
    - right. left. eauto.
    - right. right. eauto. }
  destruct H as [(e & s1 & ->) | [(p & s1 & ->) | (p & s1 & ->)]];
    cbn [exit_status uncaught]; (split; [split |]);
    try discriminate; try (intros H; exfalso; apply H; reflexivity);
    try (intros H; discriminate H); try reflexivity.
Qed.

(** ** Before the loop *)

(** X27.  A self-update the engine refuses is not reported as the
    CRITICAL line of line 153: the handler of line 152 names
    [restic.Error], which the binding does not have, and the run ends on
    the [AttributeError] of that name, with process status 1, nothing
    printed and the self-update as its only engine call. *)
Theorem failed_self_update_is_not_reported :
  forall (W : world) (args : arguments) (cfg : config),
    unknown_repository args cfg = false ->
    selfUpdate args = true ->
    engine_ok W [event_of restic.self_update (initial_state W)] = false ->
    main W args cfg
    = Crashed AttributeError
              (with_trace [event_of restic.self_update (initial_state W)]
                          (initial_state W))
    /\ exit_status (main W args cfg) = 1
    /\ printed_lines (main W args cfg) = []
    /\ calls (final_state (main W args cfg)) = [restic.self_update].
Proof.
  intros W args cfg Hknown Hupdate Hfail.
  assert (Hmain : main W args cfg
                  = Crashed AttributeError
                            (with_trace [event_of restic.self_update (initial_state W)]
                                        (initial_state W))).
  { unfold unknown_repository in Hknown. unfold main. rewrite Hknown, Hupdate.
    unfold invoke.
    change (trace (initial_state W) ++ [?ev])%list with [ev].
    cbn [trace with_trace]. rewrite Hfail. reflexivity. }
  rewrite Hmain. repeat split.
Qed.

(** [list nas] with [-u], with an engine that refuses the self-update. *)
Lemma failed_self_update_is_not_reported_witness :
  main (Sample.world_of Sample.is_self_update true [] Example.noon)
       (Sample.args_of act_list "nas" true) Sample.cfg
  = Crashed AttributeError
            (with_trace
               [event_of restic.self_update
                         (initial_state
                            (Sample.world_of Sample.is_self_update true []
                                             Example.noon))]
               (initial_state
                  (Sample.world_of Sample.is_self_update true [] Example.noon)))
  /\ exit_status (main (Sample.world_of Sample.is_self_update true [] Example.noon)
                       (Sample.args_of act_list "nas" true) Sample.cfg) = 1
  /\ printed_lines (main (Sample.world_of Sample.is_self_update true [] Example.noon)
                         (Sample.args_of act_list "nas" true) Sample.cfg) = []
  /\ calls (final_state
              (main (Sample.world_of Sample.is_self_update true [] Example.noon)
                    (Sample.args_of act_list "nas" true) Sample.cfg))
     = [restic.self_update].
Proof.
  apply (failed_self_update_is_not_reported
           (Sample.world_of Sample.is_self_update true [] Example.noon)
           (Sample.args_of act_list "nas" true) Sample.cfg).
  - vm_compute. reflexivity.
  - reflexivity.
  - vm_compute. reflexivity.
Defined.

(** X28.  With [-V] and a configuration file without a vault block,
    [vaultData] is the empty string and line 167 subscripts it: the run
    ends on a [TypeError] before the loop, with no engine call when no
    self-update was asked for.  With a vault block, a login the secret
    store refuses ends the run in the same place on the store's
    exception. *)
Theorem vault_needs_its_block :
  forall (W : world) (args : arguments) (cfg : config),
    unknown_repository args cfg = false ->
    selfUpdate args = false ->
    use_vault args = true ->
    match vaultData cfg with
    | None => main W args cfg = Crashed TypeError (initial_state W)
    | Some vd =>
        vault_login W vd = None ->
        main W args cfg = Crashed VaultError (initial_state W)
    end.
Proof.
  intros W args cfg Hknown Hupdate Hvault.
  unfold unknown_repository in Hknown.
  unfold main, open_vault. rewrite Hknown, Hupdate, Hvault.
  destruct (vaultData cfg) as [vd |]; [| reflexivity].
  intros ->. reflexivity.
Qed.

(** [list home] with [-V] against [Example.cfg], which has no vault
    block. *)
Lemma vault_needs_its_block_witness :
  match vaultData Example.cfg with
  | None => main Sample.calm (Sample.args_of act_list "home" false) Example.cfg
            = Crashed TypeError (initial_state Sample.calm)
  | Some vd =>
      vault_login Sample.calm vd = None ->
      main Sample.calm (Sample.args_of act_list "home" false) Example.cfg
      = Crashed VaultError (initial_state Sample.calm)
  end.
Proof.
  apply (vault_needs_its_block Sample.calm (Sample.args_of act_list "home" false)
                               Example.cfg).
  - vm_compute. reflexivity.
  - reflexivity.
  - reflexivity.
Defined.

(** X26.  When the self-update is asked for and the repository named on
    the command line is acceptable, the first engine call of the run is
    the self-update, made before any credential is put into the
    environment and before [restic.repository] and [restic.binary_path]
    are set: it runs against the environment the script started with. *)
Theorem self_update_comes_first :
  forall (W : world) (args : arguments) (cfg : config),
    selfUpdate args = true ->
    negb (str_in (repo_arg args) (keys (repos cfg)))
    && negb (String.eqb (repo_arg args) "ALL_REPOS") = false ->
    exists rest,
      trace (final_state (main W args cfg))
      = {| ev_repository := None; ev_environ := initial_environ W;
           ev_call := restic.self_update |} :: rest.
Proof.
  intros W args cfg Hupdate Hknown.
  unfold main. rewrite Hknown, Hupdate. unfold invoke.
  change (trace (initial_state W) ++ [?ev])%list with [ev].
  cbn [trace with_trace].
  set (ev := event_of restic.self_update (initial_state W)).
  destruct (engine_ok W [ev]).
  - destruct (open_vault W args cfg) as [vault | e]; [| exists []; reflexivity].
    set (s0 := with_trace [ev] (initial_state W)).
    pose proof (loop_state W args cfg vault
                  (if String.eqb (repo_arg args) "ALL_REPOS" then keys (repos cfg)
                   else [repo_arg args]) s0) as Hstate.
    destruct (loop W args cfg vault _ s0) as [[[] | e] s1]; cbn [snd] in Hstate;
      subst s1.
    + destruct (end_script _ _ _ _ _ _ _). exists []. reflexivity.
    + exists []. reflexivity.
  - exists []. reflexivity.
Qed.

Lemma self_update_comes_first_witness :
  exists rest,
    trace (final_state (main Sample.calm (Sample.args_of act_list "nas" true)
                             Sample.cfg))
    = {| ev_repository := None; ev_environ := initial_environ Sample.calm;
         ev_call := restic.self_update |} :: rest.
Proof.
  exact (self_update_comes_first Sample.calm (Sample.args_of act_list "nas" true)
                                 Sample.cfg eq_refl eq_refl).
Defined.
